(** * zero2w_webserver: the serial gateway of the Pi Zero 2 W web server

    A shallow embedding of [zero2w_webserver.py]: the port discovery of
    [setup_serial], one iteration of the [serial_receive_thread] loop,
    [send_to_serial] and the two JSON routes [api_send] and [api_receive],
    together with the pieces of the Python runtime they call
    ([bytes.decode], [str.encode], [str.rstrip], [int], [sorted] and
    [collections.deque]). *)

From Stdlib Require Import ZArith NArith List Bool Lia.
From Stdlib.Strings Require Import String Ascii Byte.
From Stdlib Require Import Permutation Sorted Floats FunInd.
Import ListNotations.

(** ** The Python runtime used by the server *)

Module Py.

Local Open Scope N_scope.

(** A [str] is a sequence of code points; [bytes] is a sequence of bytes. *)
Definition str := list N.
Definition bytes := list byte.

(** A string literal of the source, as a [str]. *)
Definition lit (s : string) : str :=
  map N_of_ascii (list_ascii_of_string s).

(** The code points a [str] can hold. *)
Definition code_point (c : N) : Prop := c <= 0x10FFFF.

Definition is_surrogate (c : N) : bool := (0xD800 <=? c) && (c <=? 0xDFFF).

(** A scalar value: a code point that UTF-8 can carry. *)
Definition scalar (c : N) : Prop := c <= 0x10FFFF /\ is_surrogate c = false.

(** [str.isspace] on one code point (bidirectional type WS, B or S, or
    category Zs), the test [str.rstrip()] applies. *)
Definition isspace (c : N) : bool :=
  ((0x09 <=? c) && (c <=? 0x0D)) || ((0x1C <=? c) && (c <=? 0x20))
  || (c =? 0x85) || (c =? 0xA0) || (c =? 0x1680)
  || ((0x2000 <=? c) && (c <=? 0x200A))
  || (c =? 0x2028) || (c =? 0x2029) || (c =? 0x202F) || (c =? 0x205F)
  || (c =? 0x3000).

Fixpoint lstrip (s : str) : str :=
  match s with
  | c :: r => if isspace c then lstrip r else s
  | [] => []
  end.

(** [s.rstrip()]: the trailing run of white space is removed. *)
Definition rstrip (s : str) : str := rev (lstrip (rev s)).

(** Truth value of a [str]: only the empty string is false. *)
Definition truthy (s : str) : bool :=
  match s with [] => false | _ :: _ => true end.

(** *** Ordering of strings and [sorted] *)

Fixpoint compare (a b : str) : comparison :=
  match a, b with
  | [], [] => Eq
  | [], _ :: _ => Lt
  | _ :: _, [] => Gt
  | x :: a', y :: b' =>
      match N.compare x y with
      | Eq => compare a' b'
      | c => c
      end
  end.

Definition leb (a b : str) : bool :=
  match compare a b with Gt => false | _ => true end.

Fixpoint insert (x : str) (l : list str) : list str :=
  match l with
  | [] => [x]
  | y :: r => if leb x y then x :: l else y :: insert x r
  end.

(** [sorted(l)] for a list of strings: its ascending rearrangement (the
    order of strings is total, so every sorting algorithm gives this
    list). *)
Fixpoint sorted (l : list str) : list str :=
  match l with
  | [] => []
  | x :: r => insert x (sorted r)
  end.

(** *** [collections.deque(maxlen=n)] *)

(** [d.append(x)]: the item goes to the right end, and a deque grown past
    [maxlen] drops its leftmost item. *)
Definition deque_append {A} (maxlen : nat) (d : list A) (x : A) : list A :=
  let d' := d ++ [x] in
  if (maxlen <? List.length d')%nat then tl d' else d'.

(** *** UTF-8 *)

Definition byte_of (n : N) : byte :=
  match Byte.of_N n with Some b => b | None => x00 end.

(** The bytes of one code point, [None] where the strict encoder raises
    [UnicodeEncodeError] (a surrogate). *)
Definition encode_char (c : N) : option (list N) :=
  if c <? 0x80 then Some [c]
  else if c <? 0x800 then
    Some [N.lor 0xC0 (N.shiftr c 6); N.lor 0x80 (N.land c 0x3F)]
  else if is_surrogate c then None
  else if c <? 0x10000 then
    Some [N.lor 0xE0 (N.shiftr c 12);
          N.lor 0x80 (N.land (N.shiftr c 6) 0x3F);
          N.lor 0x80 (N.land c 0x3F)]
  else if c <=? 0x10FFFF then
    Some [N.lor 0xF0 (N.shiftr c 18);
          N.lor 0x80 (N.land (N.shiftr c 12) 0x3F);
          N.lor 0x80 (N.land (N.shiftr c 6) 0x3F);
          N.lor 0x80 (N.land c 0x3F)]
  else None.

Fixpoint encode_points (s : str) : option (list N) :=
  match s with
  | [] => Some []
  | c :: r =>
      match encode_char c, encode_points r with
      | Some b, Some br => Some (b ++ br)
      | _, _ => None
      end
  end.

(** [s.encode('utf-8')]: [None] stands for [UnicodeEncodeError]. *)
Definition encode (s : str) : option bytes :=
  option_map (map byte_of) (encode_points s).

(** What the decoder finds at a position: a character, or a malformed
    run of [n] bytes handed to the error handler. *)
Inductive item : Type :=
| Char (c : N)
| Bad (n : nat).

Definition is_cont (b : N) : bool := (0x80 <=? b) && (b <=? 0xBF).

(** The second byte of a three-byte form: E0 needs A0..BF (no overlong
    form), ED needs 80..9F (no surrogate). *)
Definition second_of_3 (b1 b2 : N) : bool :=
  is_cont b2 &&
  negb (if b2 <? 0xA0 then b1 =? 0xE0 else b1 =? 0xED).

(** The second byte of a four-byte form: F0 needs 90..BF, F4 needs
    80..8F. *)
Definition second_of_4 (b1 b2 : N) : bool :=
  is_cont b2 &&
  negb (if b2 <? 0x90 then b1 =? 0xF0 else b1 =? 0xF4).

Definition char2 (b1 b2 : N) : N :=
  N.shiftl b1 6 + b2 - (N.shiftl 0xC0 6 + 0x80).

Definition char3 (b1 b2 b3 : N) : N :=
  N.shiftl b1 12 + N.shiftl b2 6 + b3
  - (N.shiftl 0xE0 12 + N.shiftl 0x80 6 + 0x80).

Definition char4 (b1 b2 b3 b4 : N) : N :=
  N.shiftl b1 18 + N.shiftl b2 12 + N.shiftl b3 6 + b4
  - (N.shiftl 0xF0 18 + N.shiftl 0x80 12 + N.shiftl 0x80 6 + 0x80).

(** The scan of CPython's UTF-8 decoder over a complete input: an invalid
    start byte is a malformed run of one byte, an invalid continuation
    byte ends a malformed run just before it, and an input that stops in
    the middle of a character is a malformed run up to its end. *)
Fixpoint scan (bs : list N) : list item :=
  match bs with
  | [] => []
  | b1 :: r1 =>
      if b1 <? 0x80 then Char b1 :: scan r1
      else if b1 <? 0xC2 then Bad 1 :: scan r1
      else if b1 <? 0xE0 then
        match r1 with
        | [] => [Bad 1]
        | b2 :: r2 =>
            if is_cont b2 then Char (char2 b1 b2) :: scan r2
            else Bad 1 :: scan r1
        end
      else if b1 <? 0xF0 then
        match r1 with
        | [] => [Bad 1]
        | b2 :: r2 =>
            if second_of_3 b1 b2 then
              match r2 with
              | [] => [Bad 2]
              | b3 :: r3 =>
                  if is_cont b3 then Char (char3 b1 b2 b3) :: scan r3
                  else Bad 2 :: scan r2
              end
            else Bad 1 :: scan r1
        end
      else if b1 <? 0xF5 then
        match r1 with
        | [] => [Bad 1]
        | b2 :: r2 =>
            if second_of_4 b1 b2 then
              match r2 with
              | [] => [Bad 2]
              | b3 :: r3 =>
                  if is_cont b3 then
                    match r3 with
                    | [] => [Bad 3]
                    | b4 :: r4 =>
                        if is_cont b4
                        then Char (char4 b1 b2 b3 b4) :: scan r4
                        else Bad 3 :: scan r3
                    end
                  else Bad 2 :: scan r2
              end
            else Bad 1 :: scan r1
        end
      else Bad 1 :: scan r1
  end.

(** The [errors] argument of [bytes.decode]. *)
Inductive errors : Type := Strict | Ignore | Replace.

Definition REPLACEMENT_CHARACTER : N := 0xFFFD.

(** What a handler makes of the scan: ['strict'] raises at the first
    malformed run ([None]), ['ignore'] leaves it out, ['replace'] puts
    U+FFFD in its place. *)
Fixpoint handle (e : errors) (its : list item) : option str :=
  match its with
  | [] => Some []
  | Char c :: r => option_map (cons c) (handle e r)
  | Bad _ :: r =>
      match e with
      | Strict => None
      | Ignore => handle e r
      | Replace => option_map (cons REPLACEMENT_CHARACTER) (handle e r)
      end
  end.

(** [b.decode('utf-8', errors=e)]: [None] stands for
    [UnicodeDecodeError]. *)
Definition decode (e : errors) (b : bytes) : option str :=
  handle e (scan (map Byte.to_N b)).

(** *** [int(s)] for a [str] *)

(** The digit zero of every script of Unicode 14 (category Nd); the
    digits one to nine of the script follow it. *)
Definition decimal_zeros : list N :=
  [0x30; 0x660; 0x6F0; 0x7C0; 0x966; 0x9E6; 0xA66; 0xAE6; 0xB66; 0xBE6;
   0xC66; 0xCE6; 0xD66; 0xDE6; 0xE50; 0xED0; 0xF20; 0x1040; 0x1090;
   0x17E0; 0x1810; 0x1946; 0x19D0; 0x1A80; 0x1A90; 0x1B50; 0x1BB0;
   0x1C40; 0x1C50; 0xA620; 0xA8D0; 0xA900; 0xA9D0; 0xA9F0; 0xAA50;
   0xABF0; 0xFF10; 0x104A0; 0x10D30; 0x11066; 0x110F0; 0x11136;
   0x111D0; 0x112F0; 0x11450; 0x114D0; 0x11650; 0x116C0; 0x11730;
   0x118E0; 0x11950; 0x11C50; 0x11D50; 0x11DA0; 0x16A60; 0x16AC0;
   0x16B50; 0x1D7CE; 0x1D7D8; 0x1D7E2; 0x1D7EC; 0x1D7F6; 0x1E140;
   0x1E2F0; 0x1E950; 0x1FBF0].

(** The value of a decimal digit of any script. *)
Definition todecimal (c : N) : option N :=
  match find (fun z => (z <=? c) && (c <? z + 10)) decimal_zeros with
  | Some z => Some (c - z)
  | None => None
  end.

(** What [int] reads is an ASCII rendering of the string: ASCII stays,
    other white space becomes a space, a digit of another script becomes
    its ASCII digit, and the rendering stops with a ['?'] at the first
    code point that is none of these. *)
Fixpoint to_ascii (s : str) : list N :=
  match s with
  | [] => []
  | c :: r =>
      if c <? 127 then c :: to_ascii r
      else if isspace c then 0x20 :: to_ascii r
      else match todecimal c with
           | Some d => (0x30 + d) :: to_ascii r
           | None => [0x3F]
           end
  end.

(** White space of the C locale, which the number parser skips. *)
Definition c_isspace (c : N) : bool :=
  ((0x09 <=? c) && (c <=? 0x0D)) || (c =? 0x20).

Fixpoint skip_space (s : list N) : list N :=
  match s with
  | c :: r => if c_isspace c then skip_space r else s
  | [] => []
  end.

Definition is_digit (c : N) : bool := (0x30 <=? c) && (c <=? 0x39).

(** The run of digits, with single underscores between digits only:
    the value, the number of digits and what follows the run; [None] for
    a doubled or trailing underscore. [prev] tells that the previous
    character was an underscore. *)
Fixpoint digits (prev : bool) (acc : Z) (n : nat) (s : list N)
  : option (Z * nat * list N) :=
  match s with
  | c :: r =>
      if c =? 0x5F then (if prev then None else digits true acc n r)
      else if is_digit c
      then digits false (acc * 10 + Z.of_N (c - 0x30))%Z (S n) r
      else if prev then None else Some (acc, n, s)
  | [] => if prev then None else Some (acc, n, [])
  end.

Definition sign (s : list N) : bool * list N :=
  match s with
  | c :: r =>
      if c =? 0x2B then (false, r)
      else if c =? 0x2D then (true, r)
      else (false, s)
  | [] => (false, [])
  end.

(** The interpreter's limit on the number of digits of a string that
    [int] converts, at its default
    ([sys.int_info.default_max_str_digits]). *)
Definition MAX_STR_DIGITS : nat := 4300%nat.

(** [int(s)] in base ten: optional white space, an optional sign, digits,
    optional white space; [None] stands for [ValueError], which is also
    what a run of more than [MAX_STR_DIGITS] digits gives. *)
Definition int (s : str) : option Z :=
  let (neg, body) := sign (skip_space (to_ascii s)) in
  match body with
  | [] => None
  | c :: _ =>
      if c =? 0x5F then None
      else match digits false 0%Z 0%nat body with
           | Some (v, S k, rest) =>
               if (MAX_STR_DIGITS <? S k)%nat then None
               else match skip_space rest with
                    | [] => Some (if neg then (- v)%Z else v)
                    | _ :: _ => None
                    end
           | _ => None
           end
  end.

End Py.

(** ** The server *)

(** *** Configuration and globals *)

Definition USB_BAUD_RATE : Z := 115200.

(** Seconds between reconnection attempts: the integer 2, which the
    loop compares with a difference of clock readings. *)
Definition RECONNECT_INTERVAL : float := 2%float.

(** The [maxlen] of [received_messages]. *)
Definition MAXLEN : nat := 100.

(** A [serial.Serial] object, as far as the server reads it. *)
Record Serial : Type := mkSerial {
  port : Py.str;
  baudrate : Z;
  is_open : bool
}.

(** An entry of [received_messages]. *)
Record Message : Type := mkMessage {
  id : Z;
  text : Py.str;
  timestamp : Py.str
}.

(** The module's globals: [None] is Python's [None]. *)
Record Globals : Type := mkGlobals {
  serial_port : option Serial;
  current_usb_port : option Py.str;
  received_messages : list Message
}.

(** The locals of [serial_receive_thread]. *)
Record Receiver : Type := mkReceiver {
  message_id : Z;
  last_reconnect_attempt : float
}.

(** *** The world outside *)

(** How a call into pyserial ends: it returns, it raises
    [serial.SerialException] or [OSError], or it raises another
    [Exception], whose text is [str(e)]. *)
Inductive io (A : Type) : Type :=
| Done (a : A)
| SerialError
| OtherError (text : Py.str).

Arguments Done {A} a.
Arguments SerialError {A}.
Arguments OtherError {A} text.

(** What the server does to the world outside, in order. *)
Inductive event : Type :=
| Glob                      (* glob.glob('/dev/ttyACM*') *)
| Open (path : Py.str)      (* serial.Serial(port=path, ...) and flush() *)
| Close                     (* serial_port.close() *)
| InWaiting                 (* serial_port.in_waiting *)
| Readline                  (* serial_port.readline() *)
| Write (data : Py.bytes).  (* serial_port.write(data) *)

(** The result of running a piece of the server: its value, the globals
    it leaves and what it did to the world. *)
Record out (A : Type) : Type := mkOut {
  value : A;
  globals : Globals;
  trace : list event
}.

Arguments mkOut {A} value globals trace.
Arguments value {A} o.
Arguments globals {A} o.
Arguments trace {A} o.

(** [serial_port = None; current_usb_port = None]. *)
Definition drop_port (g : Globals) : Globals :=
  mkGlobals None None (received_messages g).

(** [serial_port is not None and serial_port.is_open], the test of every
    reader of the connection state. *)
Definition usb_connected (g : Globals) : bool :=
  match serial_port g with
  | Some sp => is_open sp
  | None => false
  end.

(** *** setup_serial *)

(** Lines 66-73: the second of the sorted candidate paths; [None] when
    there are fewer than two. *)
Definition select_port (candidates : list Py.str) : option Py.str :=
  let acm_ports := Py.sorted candidates in
  if (List.length acm_ports <? 2)%nat then None
  else Some (nth 1 acm_ports []).

(** [setup_serial()], given what [glob.glob] lists and whether the port
    opens. *)
Definition setup_serial (candidates : list Py.str) (opens : bool)
  (g : Globals) : out bool :=
  let (g1, closing) :=
    match serial_port g with
    | Some _ => (drop_port g, [Close])
    | None => (g, [])
    end in
  match select_port candidates with
  | None => mkOut false g1 (closing ++ [Glob])
  | Some target_port =>
      if opens then
        mkOut true
          (mkGlobals (Some (mkSerial target_port USB_BAUD_RATE true))
                     (Some target_port) (received_messages g1))
          (closing ++ [Glob; Open target_port])
      else
        mkOut false (drop_port g1) (closing ++ [Glob; Open target_port])
  end.

(** *** serial_receive_thread *)

(** What one turn of the loop finds outside: the answers of
    [in_waiting] and [readline], the clock as [strftime('%H:%M:%S')] and
    as [time.time()], the device paths and whether the port opens. *)
Record LoopEnv : Type := mkLoopEnv {
  in_waiting : io Z;
  readline : io Py.bytes;
  strftime : Py.str;
  time : float;
  acm_paths : list Py.str;
  opens : bool
}.

(** Lines 105-107 on an open port. *)
Inductive polled : Type :=
| Line (line : Py.str)   (* a line that is not empty *)
| Nothing                (* no input, or a line that strips to nothing *)
| Lost                   (* SerialException or OSError *)
| Fault.                 (* another exception, left to the outer handler *)

Definition poll (env : LoopEnv) : polled * list event :=
  match in_waiting env with
  | Done n =>
      if (0 <? n)%Z then
        match readline env with
        | Done raw =>
            match Py.decode Py.Ignore raw with
            | Some s =>
                let line := Py.rstrip s in
                if Py.truthy line then (Line line, [InWaiting; Readline])
                else (Nothing, [InWaiting; Readline])
            | None => (Fault, [InWaiting; Readline])
            end
        | SerialError => (Lost, [InWaiting; Readline])
        | OtherError _ => (Fault, [InWaiting; Readline])
        end
      else (Nothing, [InWaiting])
  | SerialError => (Lost, [InWaiting])
  | OtherError _ => (Fault, [InWaiting])
  end.

(** One turn of the [while running] loop (lines 101-136). *)
Definition loop_body (env : LoopEnv) (st : Receiver) (g : Globals)
  : out Receiver :=
  if usb_connected g then
    match poll env with
    | (Line line, evs) =>
        let message_id := (message_id st + 1)%Z in
        let timestamp := strftime env in
        mkOut (mkReceiver message_id (last_reconnect_attempt st))
          (mkGlobals (serial_port g) (current_usb_port g)
             (Py.deque_append MAXLEN (received_messages g)
                (mkMessage message_id line timestamp)))
          evs
    | (Lost, evs) => mkOut st (drop_port g) (evs ++ [Close])
    | (Nothing, evs) | (Fault, evs) => mkOut st g evs
    end
  else
    let current_time := time env in
    if (RECONNECT_INTERVAL <=? current_time - last_reconnect_attempt st)%float
    then
      let o := setup_serial (acm_paths env) (opens env) g in
      mkOut (mkReceiver (message_id st) current_time) (globals o) (trace o)
    else mkOut st g [].

(** *** send_to_serial and the routes *)

(** What a send finds outside: how [write] ends, and the text Python
    gives a [UnicodeEncodeError]. *)
Record SendEnv : Type := mkSendEnv {
  write_result : io unit;
  encode_error_text : Py.str
}.

(** The literal ["\n"]. *)
Definition LF : Py.str := [10%N].

(** [send_to_serial(message)]. The console output of the function is
    taken to go through: a [print] that raises is not part of it. *)
Definition send_to_serial (message : Py.str) (env : SendEnv) (g : Globals)
  : out (bool * Py.str) :=
  if usb_connected g then
    match Py.encode (message ++ LF) with
    | None => mkOut (false, encode_error_text env) g []
    | Some data =>
        match write_result env with
        | Done _ => mkOut (true, Py.lit "Message sent") g [Write data]
        | SerialError =>
            mkOut (false, Py.lit "USB connection lost") (drop_port g)
              [Write data; Close]
        | OtherError text => mkOut (false, text) g [Write data]
        end
    end
  else mkOut (false, Py.lit "USB serial not connected") g [].

(** The JSON object a call of [/api/send] answers with. *)
Record SendResponse : Type := mkSendResponse {
  status : Py.str;
  message : Py.str
}.

(** [api_send()] for a request whose ['message'] is the string
    [message]. *)
Definition api_send (message : Py.str) (env : SendEnv) (g : Globals)
  : out SendResponse :=
  if negb (Py.truthy message) then
    mkOut (mkSendResponse (Py.lit "error") (Py.lit "Empty message")) g []
  else
    let o := send_to_serial message env g in
    let (success, msg) := value o in
    if success
    then mkOut (mkSendResponse (Py.lit "ok") msg) (globals o) (trace o)
    else mkOut (mkSendResponse (Py.lit "error") msg) (globals o) (trace o).

(** The JSON object a call of [/api/receive] answers with. *)
Record ReceiveResponse : Type := mkReceiveResponse {
  messages : list Message;
  connected : bool;
  usb_port : Py.str
}.

(** The exception a route lets escape. *)
Inductive exception : Type := ValueError.

(** [current_usb_port or "N/A"]. *)
Definition port_or_NA (p : option Py.str) : Py.str :=
  match p with
  | Some s => if Py.truthy s then s else Py.lit "N/A"
  | None => Py.lit "N/A"
  end.

(** Line 208: the messages of the buffer whose id is above [last_id]. *)
Definition query (buffer : list Message) (last_id : Z) : list Message :=
  filter (fun msg => (last_id <? id msg)%Z) buffer.

(** [api_receive()], given the [last_id] argument of the query string
    when there is one. *)
Definition api_receive (arg : option Py.str) (g : Globals)
  : out (exception + ReceiveResponse) :=
  match (match arg with Some s => Py.int s | None => Some 0%Z end) with
  | None => mkOut (inl ValueError) g []
  | Some last_id =>
      let new_messages := query (received_messages g) last_id in
      mkOut (inr (mkReceiveResponse new_messages (usb_connected g)
                    (port_or_NA (current_usb_port g)))) g []
  end.

(** *** The running process *)

(** The globals and, once the receiver thread runs, its locals. *)
Record System : Type := mkSystem {
  sys_globals : Globals;
  sys_receiver : option Receiver
}.

(** The module's globals as it is loaded. *)
Definition initial : Globals := mkGlobals None None [].

(** [main()] up to the start of the web server: the receiver thread is
    started only when the first [setup_serial()] succeeds. *)
Definition main (candidates : list Py.str) (opens : bool) : System :=
  let o := setup_serial candidates opens initial in
  mkSystem (globals o)
    (if value o then Some (mkReceiver 0 0%float) else None).

(** What happens next: a turn of the receiver loop, or a request. Each
    is taken as a whole: the threads of the server are not interleaved
    statement by statement, so a state in which one of them has written
    [serial_port] and not yet [current_usb_port] is no state of a run. *)
Inductive action : Type :=
| Tick (env : LoopEnv)
| PostSend (message : Py.str) (env : SendEnv)
| GetReceive (arg : option Py.str).

Definition step (s : System) (a : action) : System :=
  match a with
  | Tick env =>
      match sys_receiver s with
      | Some st =>
          let o := loop_body env st (sys_globals s) in
          mkSystem (globals o) (Some (value o))
      | None => s
      end
  | PostSend message env =>
      mkSystem (globals (api_send message env (sys_globals s)))
        (sys_receiver s)
  | GetReceive arg =>
      mkSystem (globals (api_receive arg (sys_globals s))) (sys_receiver s)
  end.

Definition run (s : System) (l : list action) : System :=
  fold_left step l s.

(** The message a turn of the loop appends, if it appends one. *)
Definition appended (s : System) (a : action) : list Message :=
  match a, sys_receiver s with
  | Tick env, Some st =>
      if usb_connected (sys_globals s) then
        match fst (poll env) with
        | Line line =>
            [mkMessage (message_id st + 1)%Z line (strftime env)]
        | _ => []
        end
      else []
  | _, _ => []
  end.

(** All messages appended along a run, oldest first. *)
Fixpoint history (s : System) (l : list action) : list Message :=
  match l with
  | [] => []
  | a :: r => appended s a ++ history (step s a) r
  end.

(** The clock readings at which a run called [setup_serial] from the
    loop, oldest first. *)
Definition attempted (s : System) (a : action) : list float :=
  match a, sys_receiver s with
  | Tick env, Some st =>
      if usb_connected (sys_globals s) then []
      else
        let elapsed := (time env - last_reconnect_attempt st)%float in
        if (RECONNECT_INTERVAL <=? elapsed)%float then [time env] else []
  | _, _ => []
  end.

Fixpoint attempts (s : System) (l : list action) : list float :=
  match l with
  | [] => []
  | a :: r => attempted s a ++ attempts (step s a) r
  end.

(** *** The status routes and the end of [main] *)

(** The JSON object [/api/status] answers with. *)
Record StatusResponse : Type := mkStatusResponse {
  status_field : Py.str;
  status_connected : bool;
  status_port : Py.str;
  status_baud_rate : Z
}.

(** [api_status()]. *)
Definition api_status (g : Globals) : out StatusResponse :=
  mkOut (mkStatusResponse (Py.lit "ok") (usb_connected g)
           (port_or_NA (current_usb_port g)) USB_BAUD_RATE) g [].

(** What [vex_page()] hands to its template. *)
Record PageContext : Type := mkPageContext {
  page_connected : bool;
  page_port : Py.str;
  page_baud_rate : Z
}.

(** [vex_page()], up to the rendering of the template. *)
Definition vex_page (g : Globals) : out PageContext :=
  mkOut (mkPageContext (usb_connected g)
           (port_or_NA (current_usb_port g)) USB_BAUD_RATE) g [].

(** The [finally] of [main()]: an open port is closed; the globals keep
    the closed [Serial] object and the path. *)
Definition shutdown (g : Globals) : out unit :=
  match serial_port g with
  | Some sp =>
      if is_open sp then
        mkOut tt
          (mkGlobals (Some (mkSerial (port sp) (baudrate sp) false))
             (current_usb_port g) (received_messages g))
          [Close]
      else mkOut tt g []
  | None => mkOut tt g []
  end.

(** The globals hold a port together with its path, or neither; a port
    they hold is open, at the configured baud rate. This is how the
    functions that write the two globals leave them; between two of
    their statements it need not hold. *)
Definition wired (g : Globals) : Prop :=
  match serial_port g, current_usb_port g with
  | Some sp, Some p =>
      port sp = p /\ baudrate sp = USB_BAUD_RATE /\ is_open sp = true
  | None, None => True
  | _, _ => False
  end.

(** ** The vocabulary of the statements *)

(** The order [sorted] puts strings in. *)
Definition str_le (a b : Py.str) : Prop := Py.leb a b = true.

(** [l1] is [l2] with some items left out, the rest in their order. *)
Inductive subseq {A : Type} : list A -> list A -> Prop :=
| subseq_nil : subseq [] []
| subseq_take (x : A) (l1 l2 : list A) :
    subseq l1 l2 -> subseq (x :: l1) (x :: l2)
| subseq_skip (x : A) (l1 l2 : list A) :
    subseq l1 l2 -> subseq l1 (x :: l2).

(** The characters of a scan, malformed runs left out. *)
Definition chars (its : list Py.item) : Py.str :=
  flat_map (fun i => match i with Py.Char c => [c] | Py.Bad _ => [] end)
    its.

(** What holds of a scan [its] of the bytes [bs]: its characters are
    scalar values, and their encoding is [bs] with some bytes left
    out. *)
Definition reencodes (bs : list N) (its : list Py.item) : Prop :=
  Forall Py.scalar (chars its)
  /\ exists kept, Py.encode_points (chars its) = Some kept
                  /\ subseq kept bs.

(** The number a run of ASCII digits stands for. *)
Definition decimal_value (ds : list N) : Z :=
  fold_left (fun acc c => (acc * 10 + Z.of_N (c - 0x30))%Z) ds 0%Z.

(** The value of [message_id], once the receiver thread runs. *)
Definition counter (s : System) : option Z :=
  option_map message_id (sys_receiver s).

(** [h] is everything appended so far: the buffer holds its last
    [MAXLEN] messages, the ids count from one, the counter is the number
    of messages, and no text is empty. *)
Record inv (s : System) (h : list Message) : Prop := mkInv {
  inv_buffer :
    received_messages (sys_globals s) = skipn (List.length h - MAXLEN) h;
  inv_ids : map id h = map Z.of_nat (seq 1 (List.length h));
  inv_counter :
    match sys_receiver s with
    | Some st => message_id st = Z.of_nat (List.length h)
    | None => h = []
    end;
  inv_text : Forall (fun m => text m <> []) h
}.

(** The routes, as opposed to the turns of the receiver loop. *)
Definition is_request (a : action) : Prop :=
  match a with
  | Tick _ => False
  | PostSend _ _ | GetReceive _ => True
  end.

(** ** Scenarios *)

Definition ACM0 : Py.str := Py.lit "/dev/ttyACM0".
Definition ACM1 : Py.str := Py.lit "/dev/ttyACM1".

(** A turn of the loop in which [raw] waits on the port at clock time
    [clock]. *)
Definition rx (raw : Py.bytes) (clock : string) : LoopEnv :=
  mkLoopEnv (Done (Z.of_nat (List.length raw))) (Done raw) (Py.lit clock)
    0%float [ACM0; ACM1] true.

(** The process after start-up with two devices present. *)
Definition started : System := main [ACM1; ACM0] true.

(** The lines A, B and C arrive, one per turn. *)
Definition abc : list action :=
  [Tick (rx [x41; x0a]%byte "12:00:00");
   Tick (rx [x42; x0a]%byte "12:00:01");
   Tick (rx [x43; x0a]%byte "12:00:02")].

(** The line A arrives 101 times: one more than the buffer holds. *)
Definition flood : list action :=
  repeat (Tick (rx [x41; x0a]%byte "12:00:00")) 101.

(** The first of them, as the loop stores it. *)
Definition first_A : Message :=
  mkMessage 1 (Py.lit "A") (Py.lit "12:00:00").

(** A line of two blanks and a carriage return before the newline. *)
Definition blank : LoopEnv := rx [x20; x20; x0d; x0a]%byte "12:00:03".

(** A turn of the loop at clock reading [t] in which reading the port
    fails. *)
Definition unplugged (t : float) : LoopEnv :=
  mkLoopEnv SerialError (Done []) (Py.lit "12:00:00") t [ACM0; ACM1] true.

(** A turn of the loop at clock reading [t] with both devices there and
    nothing to read. *)
Definition idle (t : float) : LoopEnv :=
  mkLoopEnv (Done 0%Z) (Done []) (Py.lit "12:00:00") t [ACM0; ACM1] true.

(** A string with a lone surrogate, as a JSON body can carry it. *)
Definition lone_surrogate : Py.str := [0xD800%N].

(** A send whose [write] would go through. *)
Definition write_ok : SendEnv :=
  mkSendEnv (Done tt) (Py.lit "surrogates not allowed").

(** A send during which the device goes away. *)
Definition write_lost : SendEnv :=
  mkSendEnv SerialError (Py.lit "surrogates not allowed").

(** ** Facts about the runtime *)

#[local] Hint Constructors subseq : core.

Functional Scheme scan_ind := Induction for Py.scan Sort Prop.

(** *** The order of strings *)

Section StringOrder.

Lemma compare_refl (a : Py.str) : Py.compare a a = Eq.
Proof.
  induction a as [|x a IH]; simpl; [reflexivity|].
  now rewrite N.compare_refl.
Qed.

Lemma compare_eq (a b : Py.str) : Py.compare a b = Eq -> a = b.
Proof.
  revert b; induction a as [|x a IH]; intros [|y b]; simpl;
    try discriminate; [reflexivity|].
  destruct (N.compare_spec x y) as [->|H|H]; try discriminate.
  intros E; f_equal; auto.
Qed.

Lemma compare_antisym (a b : Py.str) :
  Py.compare b a = CompOpp (Py.compare a b).
Proof.
  revert b; induction a as [|x a IH]; intros [|y b]; simpl;
    try reflexivity.
  rewrite (N.compare_antisym x y).
  destruct (N.compare x y); simpl; auto.
Qed.

Lemma compare_lt_trans (a b c : Py.str) :
  Py.compare a b = Lt -> Py.compare b c = Lt -> Py.compare a c = Lt.
Proof.
  revert b c; induction a as [|x a IH]; intros [|y b] [|z c]; simpl;
    try discriminate; try reflexivity.
  destruct (N.compare_spec x y) as [Exy|Lxy|Gxy]; try discriminate;
    destruct (N.compare_spec y z) as [Eyz|Lyz|Gyz]; try discriminate;
    intros H1 H2.
  - subst. rewrite N.compare_refl. eauto.
  - subst. now apply N.compare_lt_iff in Lyz as ->.
  - subst. now apply N.compare_lt_iff in Lxy as ->.
  - assert (H : (x < z)%N) by lia.
    now apply N.compare_lt_iff in H as ->.
Qed.

(** The order is the lexicographic one: a common prefix does not count,
    the first code point that differs decides, and a string comes after
    its proper prefixes. *)
Lemma compare_prefix (p a b : Py.str) :
  Py.compare (p ++ a) (p ++ b) = Py.compare a b.
Proof.
  induction p as [|x p IH]; simpl; [reflexivity|].
  now rewrite N.compare_refl.
Qed.

Lemma leb_first_difference (p a b : Py.str) (x y : N) :
  (x < y)%N -> Py.leb (p ++ x :: a) (p ++ y :: b) = true.
Proof.
  intros H. unfold Py.leb. rewrite compare_prefix. simpl.
  now apply N.compare_lt_iff in H as ->.
Qed.

Lemma leb_extension (a b : Py.str) : Py.leb a (a ++ b) = true.
Proof.
  unfold Py.leb. rewrite <- (app_nil_r a) at 1. rewrite compare_prefix.
  now destruct b.
Qed.

Lemma leb_total (a b : Py.str) : Py.leb a b = true \/ Py.leb b a = true.
Proof.
  unfold Py.leb. rewrite (compare_antisym a b).
  destruct (Py.compare a b); simpl; auto.
Qed.

Lemma leb_refl (a : Py.str) : Py.leb a a = true.
Proof. unfold Py.leb. now rewrite compare_refl. Qed.

Lemma leb_antisym (a b : Py.str) :
  Py.leb a b = true -> Py.leb b a = true -> a = b.
Proof.
  unfold Py.leb. rewrite (compare_antisym a b).
  destruct (Py.compare a b) eqn:E; simpl; try discriminate.
  intros _ _. now apply compare_eq.
Qed.

Lemma leb_trans (a b c : Py.str) :
  Py.leb a b = true -> Py.leb b c = true -> Py.leb a c = true.
Proof.
  unfold Py.leb.
  destruct (Py.compare a b) eqn:Eab; try discriminate;
    destruct (Py.compare b c) eqn:Ebc; try discriminate; intros _ _.
  - apply compare_eq in Eab as ->. now rewrite Ebc.
  - apply compare_eq in Eab as ->. now rewrite Ebc.
  - apply compare_eq in Ebc as <-. now rewrite Eab.
  - now rewrite (compare_lt_trans a b c).
Qed.

End StringOrder.

(** *** [sorted] *)

Section Sorting.

Lemma insert_perm (x : Py.str) (l : list Py.str) :
  Permutation (x :: l) (Py.insert x l).
Proof.
  induction l as [|y l IH]; simpl; [apply Permutation_refl|].
  destruct (Py.leb x y); [apply Permutation_refl|].
  eapply perm_trans; [apply perm_swap|]. now apply perm_skip.
Qed.

Lemma sorted_perm (l : list Py.str) : Permutation l (Py.sorted l).
Proof.
  induction l as [|x l IH]; simpl; [constructor|].
  eapply perm_trans; [apply perm_skip, IH|apply insert_perm].
Qed.

Lemma insert_sorted (x : Py.str) (l : list Py.str) :
  StronglySorted str_le l -> StronglySorted str_le (Py.insert x l).
Proof.
  induction 1 as [|y l Hs IH Hy]; simpl.
  - repeat constructor.
  - destruct (Py.leb x y) eqn:E.
    + constructor; [now constructor|]. constructor; [exact E|].
      eapply Forall_impl; [|exact Hy]. intros z. now apply leb_trans.
    + constructor; [exact IH|].
      assert (Hyx : str_le y x).
      { destruct (leb_total x y) as [H|H]; [congruence|exact H]. }
      eapply Permutation_Forall; [apply insert_perm|].
      now constructor.
Qed.

Lemma sorted_sorted (l : list Py.str) : StronglySorted str_le (Py.sorted l).
Proof.
  induction l as [|x l IH]; simpl; [constructor|now apply insert_sorted].
Qed.

(** An ordered list is determined by its elements. *)
Lemma sorted_unique (l1 l2 : list Py.str) :
  StronglySorted str_le l1 -> StronglySorted str_le l2 ->
  Permutation l1 l2 -> l1 = l2.
Proof.
  intros H1; revert l2.
  induction H1 as [|x l1 Hs1 IH Hx]; intros l2 H2 HP.
  - now apply Permutation_nil in HP.
  - destruct H2 as [|y l2 Hs2 Hy].
    + symmetry in HP. now apply Permutation_nil in HP.
    + assert (x = y) as <-.
      { assert (Ix : In x (y :: l2))
          by (eapply Permutation_in; [exact HP|now left]).
        assert (Iy : In y (x :: l1))
          by (eapply Permutation_in;
              [apply Permutation_sym; exact HP|now left]).
        destruct Ix as [->|Ix]; [reflexivity|].
        destruct Iy as [->|Iy]; [reflexivity|].
        rewrite Forall_forall in Hx, Hy.
        apply leb_antisym; [now apply Hx|now apply Hy]. }
      f_equal. apply IH; [exact Hs2|].
      now apply Permutation_cons_inv in HP.
Qed.

Lemma sorted_perm_eq (l1 l2 : list Py.str) :
  Permutation l1 l2 -> Py.sorted l1 = Py.sorted l2.
Proof.
  intros HP. apply sorted_unique; try apply sorted_sorted.
  eapply perm_trans; [apply Permutation_sym, sorted_perm|].
  eapply perm_trans; [exact HP|apply sorted_perm].
Qed.

Lemma sorted_length (l : list Py.str) :
  List.length (Py.sorted l) = List.length l.
Proof. symmetry. apply Permutation_length, sorted_perm. Qed.

End Sorting.

(** *** The bounded deque *)

Section Deque.

Context {A : Type}.

Lemma tl_skipn (k : nat) (l : list A) : tl (skipn k l) = skipn (S k) l.
Proof.
  revert l; induction k as [|k IH]; intros [|x l]; simpl; auto.
Qed.

Lemma deque_append_length (n : nat) (d : list A) (x : A) :
  (0 < n)%nat -> (List.length d <= n)%nat ->
  (List.length (Py.deque_append n d x) <= n)%nat.
Proof.
  intros Hn Hd. unfold Py.deque_append.
  destruct (Nat.ltb_spec n (List.length (d ++ [x]))) as [H|H]; [|exact H].
  rewrite length_app in H. simpl in H.
  destruct d as [|y d]; simpl in *; [lia|].
  rewrite length_app. simpl. lia.
Qed.

(** Appending to a full deque drops its oldest item; appending to one
    that is not full drops nothing. *)
Lemma deque_append_full (n : nat) (d : list A) (x : A) :
  Py.deque_append n d x
  = if (n <=? List.length d)%nat then tl (d ++ [x]) else d ++ [x].
Proof.
  unfold Py.deque_append. rewrite length_app. simpl.
  destruct (Nat.ltb_spec n (List.length d + 1)),
           (Nat.leb_spec n (List.length d)); try reflexivity; lia.
Qed.

(** A deque that holds the last [n] items of what was appended to it
    does so after one more [append]. *)
Lemma deque_append_skipn (n : nat) (h : list A) (x : A) :
  (0 < n)%nat ->
  Py.deque_append n (skipn (List.length h - n) h) x
  = skipn (List.length (h ++ [x]) - n) (h ++ [x]).
Proof.
  intros Hn. unfold Py.deque_append.
  rewrite !length_app, length_skipn. simpl.
  destruct (Nat.ltb_spec n (List.length h - (List.length h - n) + 1))
    as [H|H].
  - replace (List.length h + 1 - n)%nat with (S (List.length h - n))
      by lia.
    rewrite <- tl_skipn, skipn_app.
    replace (List.length h - n - List.length h)%nat with 0%nat by lia.
    reflexivity.
  - replace (List.length h + 1 - n)%nat with 0%nat by lia.
    replace (List.length h - n)%nat with 0%nat by lia.
    reflexivity.
Qed.

End Deque.

(** ** Facts about the server *)

(** *** What a step changes *)

Section Steps.

Lemma setup_serial_buffer (c : list Py.str) (o : bool) (g : Globals) :
  received_messages (globals (setup_serial c o g)) = received_messages g.
Proof.
  unfold setup_serial.
  destruct (serial_port g), (select_port c), o; reflexivity.
Qed.

Lemma send_to_serial_buffer (m : Py.str) (env : SendEnv) (g : Globals) :
  received_messages (globals (send_to_serial m env g))
  = received_messages g.
Proof.
  unfold send_to_serial.
  destruct (usb_connected g), (Py.encode (m ++ LF)), (write_result env);
    reflexivity.
Qed.

Lemma api_send_globals (m : Py.str) (env : SendEnv) (g : Globals) :
  m <> [] ->
  globals (api_send m env g) = globals (send_to_serial m env g).
Proof.
  intros Hm. unfold api_send.
  destruct m as [|c m]; [contradiction|]. simpl.
  destruct (value (send_to_serial (c :: m) env g)) as [[|] msg];
    reflexivity.
Qed.

Lemma api_send_buffer (m : Py.str) (env : SendEnv) (g : Globals) :
  received_messages (globals (api_send m env g)) = received_messages g.
Proof.
  destruct m as [|c m]; [reflexivity|].
  rewrite api_send_globals by discriminate.
  apply send_to_serial_buffer.
Qed.

Lemma api_receive_globals (arg : option Py.str) (g : Globals) :
  globals (api_receive arg g) = g.
Proof.
  unfold api_receive.
  destruct (match arg with Some s => Py.int s | None => Some 0%Z end);
    reflexivity.
Qed.

(** A line the loop stores is never empty. *)
Lemma poll_line (env : LoopEnv) (line : Py.str) (evs : list event) :
  poll env = (Line line, evs) -> line <> [].
Proof.
  unfold poll.
  destruct (in_waiting env) as [n| |t]; try discriminate.
  destruct (0 <? n)%Z; try discriminate.
  destruct (readline env) as [raw| |t]; try discriminate.
  destruct (Py.decode Py.Ignore raw) as [s|]; try discriminate.
  destruct (Py.truthy (Py.rstrip s)) eqn:T; try discriminate.
  intros [= <- _] E. rewrite E in T. discriminate.
Qed.

(** A step either leaves buffer and counter alone, or it counts one up
    and appends one message with the new id. *)
Lemma step_cases (s : System) (a : action) :
  (appended s a = []
   /\ received_messages (sys_globals (step s a))
      = received_messages (sys_globals s)
   /\ counter (step s a) = counter s)
  \/ (exists st m,
        sys_receiver s = Some st
        /\ appended s a = [m]
        /\ id m = (message_id st + 1)%Z
        /\ text m <> []
        /\ received_messages (sys_globals (step s a))
           = Py.deque_append MAXLEN (received_messages (sys_globals s)) m
        /\ counter (step s a) = Some (message_id st + 1)%Z).
Proof.
  destruct s as [g r], a as [env|msg env|arg]; unfold counter; simpl.
  - destruct r as [st|]; [|left; auto].
    unfold appended, loop_body; simpl.
    destruct (usb_connected g).
    + destruct (poll env) as [[line| | |] evs] eqn:P; simpl; auto.
      right. exists st. eexists. repeat split; try reflexivity.
      simpl. eapply poll_line, P.
    + left. destruct (_ <=? _)%float; simpl; auto.
      now rewrite setup_serial_buffer.
  - left. rewrite api_send_buffer. destruct r; auto.
  - left. rewrite api_receive_globals. destruct r; auto.
Qed.

Lemma run_app (s : System) (l1 l2 : list action) :
  run s (l1 ++ l2) = run (run s l1) l2.
Proof. apply fold_left_app. Qed.

Lemma history_app (s : System) (l1 l2 : list action) :
  history s (l1 ++ l2) = history s l1 ++ history (run s l1) l2.
Proof.
  revert s; induction l1 as [|a l1 IH]; intros s; simpl; [reflexivity|].
  now rewrite IH, app_assoc.
Qed.

Lemma attempts_app (s : System) (l1 l2 : list action) :
  attempts s (l1 ++ l2) = attempts s l1 ++ attempts (run s l1) l2.
Proof.
  revert s; induction l1 as [|a l1 IH]; intros s; simpl; [reflexivity|].
  now rewrite IH, app_assoc.
Qed.

End Steps.

(** *** The invariant of the buffer and the counter *)

Section Invariant.

Lemma inv_main (c : list Py.str) (o : bool) : inv (main c o) [].
Proof.
  unfold main. split; simpl; auto.
  - now rewrite setup_serial_buffer.
  - now destruct (value _).
Qed.

Lemma inv_step (s : System) (h : list Message) (a : action) :
  inv s h -> inv (step s a) (h ++ appended s a).
Proof.
  intros [Hb Hi Hc Ht].
  destruct (step_cases s a)
    as [(E & Eb & Ec)|(st & m & Er & E & Em & Etx & Eb & Ec)];
    rewrite E.
  - rewrite app_nil_r. split; auto; [congruence|].
    unfold counter in Ec.
    destruct (sys_receiver (step s a)), (sys_receiver s);
      simpl in Ec; try discriminate; auto.
    injection Ec as ->. exact Hc.
  - rewrite Er in Hc. split.
    + rewrite Eb, Hb. apply deque_append_skipn. unfold MAXLEN. lia.
    + rewrite length_app. simpl.
      replace (List.length h + 1)%nat with (S (List.length h)) by lia.
      rewrite seq_S, !map_app, Hi. simpl. rewrite Em, Hc.
      do 2 f_equal. lia.
    + unfold counter in Ec.
      destruct (sys_receiver (step s a)); simpl in Ec; [|discriminate].
      injection Ec as ->. rewrite length_app. simpl. lia.
    + apply Forall_app. split; auto.
Qed.

Lemma inv_run (s : System) (h : list Message) (l : list action) :
  inv s h -> inv (run s l) (h ++ history s l).
Proof.
  revert s h; induction l as [|a l IH]; intros s h H; simpl.
  - now rewrite app_nil_r.
  - rewrite app_assoc. apply IH, inv_step, H.
Qed.

(** The invariant holds of every state the process reaches. *)
Lemma inv_reach (c : list Py.str) (o : bool) (l : list action) :
  inv (run (main c o) l) (history (main c o) l).
Proof. apply (inv_run _ []), inv_main. Qed.

End Invariant.

(** *** Order of a selection *)

Section Selection.

Context {A : Type}.

Lemma subseq_refl (l : list A) : subseq l l.
Proof. induction l; auto. Qed.

Lemma subseq_filter (p : A -> bool) (l : list A) : subseq (filter p l) l.
Proof. induction l as [|x l IH]; simpl; [|destruct (p x)]; auto. Qed.

Lemma subseq_skipn (k : nat) (l : list A) : subseq (skipn k l) l.
Proof.
  revert l; induction k as [|k IH]; intros [|x l]; simpl; auto.
  apply subseq_refl.
Qed.

Lemma subseq_app (l1 l2 r1 r2 : list A) :
  subseq l1 l2 -> subseq r1 r2 -> subseq (l1 ++ r1) (l2 ++ r2).
Proof. induction 1; simpl; auto. Qed.

Lemma subseq_nil_l (l : list A) : subseq [] l.
Proof. induction l; auto. Qed.

Lemma filter_all (p : A -> bool) (l : list A) :
  (forall x, In x l -> p x = true) -> filter p l = l.
Proof.
  induction l as [|x l IH]; simpl; intros H; [reflexivity|].
  rewrite (H x) by auto. f_equal. auto.
Qed.

Lemma filter_none (p : A -> bool) (l : list A) :
  (forall x, In x l -> p x = false) -> filter p l = [].
Proof.
  induction l as [|x l IH]; simpl; intros H; [reflexivity|].
  rewrite (H x) by auto. auto.
Qed.

End Selection.

(** *** The ids in the buffer *)

Section Ids.

Lemma seq_increasing (a n : nat) :
  StronglySorted Z.lt (map Z.of_nat (seq a n)).
Proof.
  revert a; induction n as [|n IH]; intros a; simpl; constructor; auto.
  apply Forall_forall. intros z Hz.
  apply in_map_iff in Hz as (k & <- & Hk). apply in_seq in Hk. lia.
Qed.

(** The ids of the buffer are the last ones handed out. *)
Lemma buffer_ids (s : System) (h : list Message) :
  inv s h ->
  map id (received_messages (sys_globals s))
  = map Z.of_nat (seq (1 + (List.length h - MAXLEN))
                      (List.length h - (List.length h - MAXLEN))).
Proof.
  intros [Hb Hi _ _].
  now rewrite Hb, <- skipn_map, Hi, skipn_map, skipn_seq.
Qed.

Lemma buffer_increasing (s : System) (h : list Message) :
  inv s h -> StronglySorted Z.lt (map id (received_messages (sys_globals s))).
Proof. intros H. rewrite (buffer_ids s h H). apply seq_increasing. Qed.

Lemma history_id (s : System) (h : list Message) (m : Message) :
  inv s h -> In m h -> (1 <= id m <= Z.of_nat (List.length h))%Z.
Proof.
  intros [_ Hi _ _] Hm. apply (in_map id) in Hm. rewrite Hi in Hm.
  apply in_map_iff in Hm as (k & <- & Hk). apply in_seq in Hk. lia.
Qed.

Lemma buffer_id (s : System) (h : list Message) (m : Message) :
  inv s h -> In m (received_messages (sys_globals s)) ->
  (Z.of_nat (List.length h - MAXLEN) < id m <= Z.of_nat (List.length h))%Z.
Proof.
  intros H Hm. apply (in_map id) in Hm. rewrite (buffer_ids s h H) in Hm.
  apply in_map_iff in Hm as (k & <- & Hk). apply in_seq in Hk. lia.
Qed.

Lemma firstn_seq_in (k a n x : nat) :
  In x (firstn k (seq a n)) -> (a <= x < a + k)%nat.
Proof.
  revert a n; induction k as [|k IH]; intros a [|n]; simpl;
    try contradiction.
  intros [<-|H]; [lia|]. apply IH in H. lia.
Qed.

Lemma increasing_last (l : list Z) (x y : Z) :
  StronglySorted Z.lt (l ++ [y]) -> In x (l ++ [y]) -> (x <= y)%Z.
Proof.
  induction l as [|z l IH]; simpl; intros HS [<-|Hx].
  - lia.
  - destruct Hx.
  - inversion_clear HS as [|? ? _ HF]. rewrite Forall_forall in HF.
    assert (z < y)%Z by (apply HF, in_or_app; right; now left). lia.
  - inversion_clear HS as [|? ? HS' _]. auto.
Qed.

End Ids.

(** ** The read route: [api_receive] *)

Section Receive.

(** C1. Whatever was received so far and whatever integer [since] is,
    [api_receive] answers with [query] (at 0 when the request names no
    [last_id]), which holds exactly the stored
    messages whose id is above [since], in the order in which they were
    appended; this also holds of any other buffer contents. The stored
    ids increase strictly, so a [since] at or above the newest stored id
    gives the empty list; and as long as at most 100 messages were
    appended, [query 0] is the list of all of them, with ids 1, 2, ... *)
Theorem api_receive_query :
  forall (c : list Py.str) (o : bool) (l : list action) (since : Z),
    let s0 := main c o in
    let g := sys_globals (run s0 l) in
    let buffer := received_messages g in
    let h := history s0 l in
    (forall arg, Py.int arg = Some since ->
       api_receive (Some arg) g
       = mkOut (inr (mkReceiveResponse (query buffer since)
                       (usb_connected g) (port_or_NA (current_usb_port g))))
           g [])
    /\ api_receive None g
       = mkOut (inr (mkReceiveResponse (query buffer 0)
                       (usb_connected g) (port_or_NA (current_usb_port g))))
           g []
    /\ (forall b : list Message,
          (forall m, In m (query b since) <-> In m b /\ (since < id m)%Z)
          /\ subseq (query b since) b)
    /\ subseq buffer h
    /\ StronglySorted Z.lt (map id buffer)
    /\ (forall older newest,
          buffer = older ++ [newest] -> (id newest <= since)%Z ->
          query buffer since = [])
    /\ ((List.length h <= 100)%nat ->
        query buffer 0 = h
        /\ map id h = map Z.of_nat (seq 1 (List.length h))).
Proof.
  intros c o l since s0 g buffer h.
  pose proof (inv_reach c o l) as I. fold s0 h in I.
  assert (HS : StronglySorted Z.lt (map id buffer))
    by apply (buffer_increasing _ _ I).
  repeat split.
  - intros arg E. unfold api_receive. now rewrite E.
  - unfold query in H. apply filter_In in H. tauto.
  - unfold query in H. apply filter_In in H. now apply Z.ltb_lt.
  - intros [H1 H2]. apply filter_In. split; [exact H1|now apply Z.ltb_lt].
  - apply subseq_filter.
  - unfold buffer, g. rewrite (inv_buffer _ _ I). apply subseq_skipn.
  - exact HS.
  - intros older newest E Hn. apply filter_none. intros m Hm.
    apply Z.ltb_ge. rewrite E, map_app in HS. simpl in HS.
    apply (Z.le_trans _ (id newest)); [|exact Hn].
    apply (increasing_last (map id older)); [exact HS|].
    change (In (id m) (map id older ++ map id [newest])).
    rewrite <- map_app, <- E. now apply in_map.
  - unfold buffer, g. rewrite (inv_buffer _ _ I).
    replace (List.length h - MAXLEN)%nat with 0%nat
      by (unfold MAXLEN; lia).
    simpl. apply filter_all. intros m Hm. apply Z.ltb_lt.
    pose proof (history_id _ _ m I Hm). lia.
  - apply (inv_ids _ _ I).
Qed.

(** The lines A, B and C get the ids 1, 2, 3, and a reader that has seen
    id 1 is given B and C, in this order. *)
Lemma api_receive_query_abc :
  value (api_receive (Some (Py.lit "1")) (sys_globals (run started abc)))
  = inr (mkReceiveResponse
           [mkMessage 2 (Py.lit "B") (Py.lit "12:00:01");
            mkMessage 3 (Py.lit "C") (Py.lit "12:00:02")]
           true ACM1).
Proof.
  exact (f_equal value
           (proj1 (api_receive_query [ACM1; ACM0] true abc 1)
              (Py.lit "1") eq_refl)).
Defined.

End Receive.

(** ** Port discovery: [setup_serial] *)

Section Discovery.

Lemma select_port_perm (c c' : list Py.str) :
  Permutation c c' -> select_port c = select_port c'.
Proof. intros H. unfold select_port. now rewrite (sorted_perm_eq c c'). Qed.

(** C5. The port discovery of [setup_serial] puts the candidate paths in
    lexicographic order (an ordered rearrangement of the candidates,
    where the first code point that differs decides and a path comes
    after its prefixes) and takes the path at index 1; its choice does
    not depend on the order in which the paths were listed, and it is the
    only path [setup_serial] opens. With fewer than two candidates there
    is no choice: [setup_serial] returns [False], opens nothing and
    leaves the server without a port. Of /dev/ttyACM0 and /dev/ttyACM1,
    listed in any order, it takes /dev/ttyACM1. *)
Theorem select_port_second :
  forall c : list Py.str,
    (StronglySorted str_le (Py.sorted c)
     /\ Permutation c (Py.sorted c)
     /\ (forall p a b x y, (x < y)%N -> str_le (p ++ x :: a) (p ++ y :: b))
     /\ (forall a b, str_le a (a ++ b)))
    /\ ((2 <= List.length c)%nat ->
        select_port c = Some (nth 1 (Py.sorted c) [])
        /\ forall (o : bool) (g : Globals) (q : Py.str),
             In (Open q) (trace (setup_serial c o g)) ->
             Some q = select_port c)
    /\ ((List.length c < 2)%nat ->
        select_port c = None
        /\ forall (o : bool) (g : Globals),
             value (setup_serial c o g) = false
             /\ serial_port (globals (setup_serial c o g)) = None
             /\ forall p, ~ In (Open p) (trace (setup_serial c o g)))
    /\ (forall c', Permutation c c' -> select_port c' = select_port c)
    /\ (Permutation c [ACM0; ACM1] -> select_port c = Some ACM1).
Proof.
  intros c. split.
  { split; [apply sorted_sorted|]. split; [apply sorted_perm|].
    split; intros; [now apply leb_first_difference|apply leb_extension]. }
  assert (N : (List.length c < 2)%nat -> select_port c = None).
  { intros H. unfold select_port. rewrite sorted_length.
    now apply Nat.ltb_lt in H as ->. }
  repeat split.
  - unfold select_port. rewrite sorted_length.
    now apply Nat.ltb_ge in H as ->.
  - intros o g q. unfold setup_serial.
    destruct (serial_port g), (select_port c), o; simpl;
      intuition congruence.
  - auto.
  - unfold setup_serial. rewrite (N H). now destruct (serial_port g).
  - unfold setup_serial. rewrite (N H).
    destruct (serial_port g) eqn:E; simpl; [reflexivity|exact E].
  - unfold setup_serial. rewrite (N H).
    destruct (serial_port g); simpl; intuition discriminate.
  - intros c' H. symmetry. now apply select_port_perm.
  - intros H. now rewrite (select_port_perm _ _ H).
Qed.

(** The two devices listed with ACM1 first. *)
Lemma select_port_second_acm :
  select_port [ACM1; ACM0] = Some ACM1.
Proof.
  apply (proj2 (proj2 (proj2 (proj2 (select_port_second [ACM1; ACM0]))))).
  apply perm_swap.
Defined.

End Discovery.

(** ** The receiver loop: buffer and ids *)

Section Buffer.

Lemma increasing_NoDup (l : list Z) : StronglySorted Z.lt l -> NoDup l.
Proof.
  induction 1 as [|x l _ IH Hx]; constructor; auto.
  intros Hin. rewrite Forall_forall in Hx. specialize (Hx x Hin). lia.
Qed.

(** A step that starts or ends without a connection leaves the counter
    alone. *)
Lemma step_counter_closed (s : System) (a : action) :
  usb_connected (sys_globals s) = false
  \/ usb_connected (sys_globals (step s a)) = false ->
  counter (step s a) = counter s.
Proof.
  destruct (step_cases s a)
    as [(_ & _ & Ec)|(st & m & Er & E & _ & _ & _ & _)]; [auto|].
  destruct s as [g r], a as [env|msg env|arg]; simpl in *;
    try discriminate.
  subst r. unfold appended in E. unfold loop_body. simpl in E.
  destruct (usb_connected g) eqn:U; [|discriminate].
  intros [F|F]; [discriminate|].
  destruct (poll env) as [[line| | |] evs]; simpl in *;
    try discriminate.
  unfold usb_connected in *. simpl in F. congruence.
Qed.

(** C6. After any run of the process the buffer holds at most 100
    messages, namely the last 100 that were appended. An append to a
    full buffer drops the oldest entry and puts the new message at the
    end; an append to a buffer that is not full drops nothing. A message
    that has left the buffer is gone for good: its id is in no answer to
    any later query. *)
Theorem buffer_bounded :
  forall (c : list Py.str) (o : bool) (l : list action),
    let s0 := main c o in
    let s := run s0 l in
    let buffer := received_messages (sys_globals s) in
    let h := history s0 l in
    (List.length buffer <= 100)%nat
    /\ buffer = skipn (List.length h - 100) h
    /\ (forall a m,
          appended s a = [m] ->
          received_messages (sys_globals (step s a))
          = if (List.length buffer =? 100)%nat
            then tl buffer ++ [m] else buffer ++ [m])
    /\ (forall m,
          In m (firstn (List.length h - 100) h) ->
          forall (l' : list action) (since : Z),
            ~ In (id m)
                (map id (query (received_messages
                                  (sys_globals (run s l'))) since))).
Proof.
  intros c o l s0 s buffer h.
  pose proof (inv_reach c o l) as I. fold s0 s h in I.
  assert (Hb : buffer = skipn (List.length h - 100) h)
    by apply (inv_buffer _ _ I).
  assert (Hl : (List.length buffer <= 100)%nat)
    by (rewrite Hb, length_skipn; lia).
  repeat split; auto.
  - intros a m E.
    destruct (step_cases s a)
      as [(E' & _)|(st & m' & _ & E' & _ & _ & Eb & _)];
      rewrite E' in E; [discriminate|]. injection E as ->.
    rewrite Eb, deque_append_full. fold buffer. unfold MAXLEN.
    destruct (Nat.leb_spec 100 (List.length buffer)),
             (Nat.eqb_spec (List.length buffer) 100); try lia; auto.
    destruct buffer; [discriminate|reflexivity].
  - intros m Hm l' since Hin.
    apply in_map_iff in Hin as (m' & Eid & Hm').
    apply filter_In in Hm' as [Hm' _].
    pose proof (inv_reach c o (l ++ l')) as I'.
    rewrite run_app, history_app in I'. fold s0 s h in I'.
    apply (buffer_id _ _ _ I') in Hm'.
    rewrite length_app in Hm'. unfold MAXLEN in Hm'.
    apply (in_map id) in Hm.
    rewrite <- firstn_map, (inv_ids _ _ I), firstn_map in Hm.
    apply in_map_iff in Hm as (k & Ek & Hk). apply firstn_seq_in in Hk.
    lia.
Qed.

(** After 101 lines the buffer holds 100 messages, and the first
    message is in no answer to a reader that asks for everything. *)
Lemma buffer_bounded_flood :
  (List.length (received_messages (sys_globals (run started flood)))
   <= 100)%nat
  /\ ~ In (id first_A)
       (map id
          (query (received_messages
                    (sys_globals (run (run started flood)
                                    [GetReceive (Some (Py.lit "0"))])))
             0)).
Proof.
  split.
  - exact (proj1 (buffer_bounded [ACM1; ACM0] true flood)).
  - apply (proj2 (proj2 (proj2 (buffer_bounded [ACM1; ACM0] true flood)))).
    vm_compute. left. reflexivity.
Defined.

(** C7. The ids of the messages the receiver appends, over the whole
    life of the process and whatever happens to the connection in
    between, are 1, 2, 3, ...: they start at 1, increase, and none
    occurs twice. The counter is the number of messages appended so far,
    and a step that starts or ends with the connection closed does not
    change it. *)
Theorem message_ids_increase :
  forall (c : list Py.str) (o : bool) (l : list action),
    let s0 := main c o in
    let s := run s0 l in
    let h := history s0 l in
    map id h = map Z.of_nat (seq 1 (List.length h))
    /\ StronglySorted Z.lt (map id h)
    /\ NoDup (map id h)
    /\ match sys_receiver s with
       | Some st => message_id st = Z.of_nat (List.length h)
       | None => h = []
       end
    /\ (forall a,
          usb_connected (sys_globals s) = false
          \/ usb_connected (sys_globals (step s a)) = false ->
          counter (step s a) = counter s)
    /\ (forall a m, In m (appended s a) ->
          forall m', In m' h -> (id m' < id m)%Z).
Proof.
  intros c o l s0 s h.
  pose proof (inv_reach c o l) as I. fold s0 s h in I.
  assert (HS : StronglySorted Z.lt (map id h))
    by (rewrite (inv_ids _ _ I); apply seq_increasing).
  repeat split.
  - apply (inv_ids _ _ I).
  - exact HS.
  - now apply increasing_NoDup.
  - apply (inv_counter _ _ I).
  - intros a. apply step_counter_closed.
  - intros a m Hm m' Hm'.
    destruct (step_cases s a)
      as [(E & _)|(st & m0 & Er & E & Em & _)];
      rewrite E in Hm; [destruct Hm|destruct Hm as [<-|[]]].
    pose proof (inv_counter _ _ I) as Hc. rewrite Er in Hc.
    pose proof (history_id _ _ _ I Hm'). lia.
Qed.

(** The lines A, B and C get the ids 1, 2 and 3. *)
Lemma message_ids_increase_abc : map id (history started abc) = [1; 2; 3]%Z.
Proof. exact (proj1 (message_ids_increase [ACM1; ACM0] true abc)). Defined.

(** C9. A line that is empty once its trailing white space is stripped
    is discarded: the turn of the loop that reads it appends nothing and
    leaves the counter as it is. So no stored message has an empty text,
    and the stored ids are consecutive. *)
Theorem blank_line_discarded :
  forall (env : LoopEnv) (n : Z) (raw : Py.bytes) (s : Py.str),
    in_waiting env = Done n -> (0 < n)%Z -> readline env = Done raw ->
    Py.decode Py.Ignore raw = Some s -> Py.rstrip s = [] ->
    (forall st g,
       usb_connected g = true ->
       loop_body env st g = mkOut st g [InWaiting; Readline])
    /\ (forall c o l,
          let sys := run (main c o) l in
          usb_connected (sys_globals sys) = true ->
          step sys (Tick env) = sys /\ appended sys (Tick env) = [])
    /\ (forall c o l,
          let buffer :=
            received_messages (sys_globals (run (main c o) l)) in
          Forall (fun m => text m <> []) buffer
          /\ exists k, map id buffer
                       = map Z.of_nat (seq k (List.length buffer))).
Proof.
  intros env n raw s Hw Hn Hr Hd Hs.
  assert (P : poll env = (Nothing, [InWaiting; Readline])).
  { unfold poll. rewrite Hw. apply Z.ltb_lt in Hn as ->.
    now rewrite Hr, Hd, Hs. }
  assert (L : forall st g, usb_connected g = true ->
                loop_body env st g = mkOut st g [InWaiting; Readline]).
  { intros st g U. unfold loop_body. now rewrite U, P. }
  split; [exact L|]. split.
  - intros c o l sys U. unfold appended. simpl. rewrite U, P.
    destruct sys as [g [st|]]; simpl in *; [|auto].
    now rewrite (L st g U).
  - intros c o l buffer.
    pose proof (inv_reach c o l) as I. split.
    + unfold buffer. rewrite (inv_buffer _ _ I).
      pose proof (inv_text _ _ I) as Ht. rewrite Forall_forall in *.
      intros m Hm. apply Ht.
      rewrite <- (firstn_skipn (List.length
        (history (main c o) l) - MAXLEN)). apply in_or_app. now right.
    + eexists. unfold buffer.
      rewrite (buffer_ids _ _ I), (inv_buffer _ _ I), length_skipn.
      reflexivity.
Qed.

Lemma blank_line_discarded_after_abc :
  step (run started abc) (Tick blank) = run started abc
  /\ appended (run started abc) (Tick blank) = [].
Proof.
  exact (proj1 (proj2 (blank_line_discarded blank 4
                         [x20; x20; x0d; x0a]%byte
                         (Py.lit "  " ++ [13%N; 10%N])
                         eq_refl eq_refl eq_refl eq_refl eq_refl))
           [ACM1; ACM0] true abc eq_refl).
Defined.

End Buffer.

(** ** The write route: [send_to_serial] and [api_send] *)

Section Send.

Lemma encode_points_app (a b : Py.str) :
  Py.encode_points (a ++ b)
  = match Py.encode_points a, Py.encode_points b with
    | Some x, Some y => Some (x ++ y)
    | _, _ => None
    end.
Proof.
  induction a as [|c a IH]; simpl.
  - now destruct (Py.encode_points b).
  - rewrite IH.
    destruct (Py.encode_char c), (Py.encode_points a),
             (Py.encode_points b); simpl; try reflexivity.
    now rewrite app_assoc.
Qed.

(** The bytes of [message + "\n"] are the bytes of [message] and a
    line feed. *)
Lemma encode_LF (m : Py.str) :
  Py.encode (m ++ LF) = option_map (fun b => b ++ [x0a]%byte) (Py.encode m).
Proof.
  unfold Py.encode. rewrite encode_points_app.
  destruct (Py.encode_points m); simpl; [|reflexivity].
  now rewrite map_app.
Qed.

Lemma request_keeps_closed (s : System) (a : action) :
  is_request a -> usb_connected (sys_globals s) = false ->
  sys_globals (step s a) = sys_globals s.
Proof.
  destruct a as [env|msg env|arg]; simpl; intros R U; [contradiction| |].
  - destruct msg as [|c msg]; [reflexivity|].
    rewrite api_send_globals by discriminate.
    unfold send_to_serial. now rewrite U.
  - apply api_receive_globals.
Qed.

Lemma requests_keep_closed (s : System) (l : list action) :
  Forall is_request l -> usb_connected (sys_globals s) = false ->
  usb_connected (sys_globals (run s l)) = false.
Proof.
  intros H; revert s; induction H as [|a l Ha _ IH]; intros s U; simpl;
    [exact U|].
  apply IH. now rewrite request_keeps_closed.
Qed.

(** A send of a lone surrogate on an open connection fails, and the
    connection is as open as before. *)
Lemma failed_send_stays_open :
  usb_connected (sys_globals started) = true
  /\ fst (value (send_to_serial lone_surrogate write_ok
                   (sys_globals started))) = false
  /\ usb_connected (globals (send_to_serial lone_surrogate write_ok
                               (sys_globals started))) = true.
Proof. repeat split. Qed.

(** C2, amended. A write on an open connection that fails with
    [SerialException] or [OSError] closes the connection as part of the
    failure: [send_to_serial] returns with the port dropped, and every
    request served after it, up to the next turn of the receiver loop,
    finds the connection closed. A send that fails in another way
    (the text cannot be encoded, or [write] raises another exception)
    leaves the globals, and so the open connection, as they were. *)
Theorem failed_write_closes :
  forall (message : Py.str) (env : SendEnv) (g : Globals),
    usb_connected g = true ->
    let o := send_to_serial message env g in
    (forall data,
       Py.encode (message ++ LF) = Some data ->
       write_result env = SerialError ->
       value o = (false, Py.lit "USB connection lost")
       /\ globals o = drop_port g
       /\ trace o = [Write data; Close]
       /\ usb_connected (globals o) = false
       /\ forall (r : option Receiver) (later : list action),
            Forall is_request later ->
            usb_connected
              (sys_globals (run (mkSystem (globals o) r) later)) = false)
    /\ (fst (value o) = false ->
        (forall data, Py.encode (message ++ LF) = Some data ->
                      write_result env <> SerialError) ->
        globals o = g).
Proof.
  intros message env g U o. subst o. unfold send_to_serial. rewrite U.
  split.
  - intros data E W. rewrite E, W. simpl. repeat split.
    intros r later H. now apply requests_keep_closed.
  - destruct (Py.encode (message ++ LF)) as [data|]; [|reflexivity].
    destruct (write_result env); try reflexivity.
    intros _ H. now destruct (H data eq_refl).
Qed.

(** The device goes away while "hi" is written. *)
Lemma failed_write_closes_hi :
  usb_connected
    (globals (send_to_serial (Py.lit "hi") write_lost
                (sys_globals started))) = false.
Proof.
  exact (proj1 (proj2 (proj2 (proj2
           (proj1 (failed_write_closes (Py.lit "hi") write_lost
                     (sys_globals started) eq_refl)
              [x68; x69; x0a]%byte eq_refl eq_refl))))).
Defined.

(** A message of one blank is not rejected: the blank and a line feed
    are written to the port. *)
Lemma blank_send_written :
  Py.rstrip (Py.lit " ") = []
  /\ api_send (Py.lit " ") write_ok (sys_globals started)
     = mkOut (mkSendResponse (Py.lit "ok") (Py.lit "Message sent"))
         (sys_globals started) [Write [x20; x0a]%byte].
Proof. split; reflexivity. Qed.

(** C3, amended. [api_send] rejects the empty message, and only it, at
    once with the error "Empty message", leaving the globals alone and
    doing nothing to the port. Every other message, blank or not, goes
    to [send_to_serial]; what is written to the port is then the bytes
    of the message followed by a line feed, and on an open connection
    that write is the first thing done. *)
Theorem api_send_empty_rejected :
  forall (m : Py.str) (env : SendEnv) (g : Globals),
    let o := api_send m env g in
    (m = [] ->
     o = mkOut (mkSendResponse (Py.lit "error") (Py.lit "Empty message"))
           g [])
    /\ (m <> [] ->
        globals o = globals (send_to_serial m env g)
        /\ trace o = trace (send_to_serial m env g)
        /\ message (value o)
           = snd (value (send_to_serial m env g))
        /\ (forall data,
              In (Write data) (trace o) ->
              exists b, Py.encode m = Some b
                        /\ data = b ++ [x0a]%byte)
        /\ (forall b,
              usb_connected g = true -> Py.encode m = Some b ->
              hd_error (trace o) = Some (Write (b ++ [x0a]%byte)))).
Proof.
  intros m env g o. subst o. split; [now intros ->|].
  intros Hm. unfold api_send.
  destruct m as [|c m]; [contradiction|]. simpl Py.truthy. cbv iota.
  simpl negb. cbv iota.
  set (o := send_to_serial (c :: m) env g).
  assert (T : (forall data, In (Write data) (trace o) ->
                 exists b, Py.encode (c :: m) = Some b
                           /\ data = b ++ [x0a]%byte)
              /\ (forall b, usb_connected g = true ->
                    Py.encode (c :: m) = Some b ->
                    hd_error (trace o) = Some (Write (b ++ [x0a]%byte)))).
  { subst o. unfold send_to_serial. rewrite encode_LF.
    destruct (usb_connected g); [|split; [intros ? []|discriminate]].
    destruct (Py.encode (c :: m)) as [b|]; simpl;
      [|split; [intros ? []|discriminate]].
    destruct (write_result env); simpl; split;
      try (intros b' _ [= <-]; reflexivity);
      intros data H; exists b; split; auto;
      repeat (destruct H as [H|H]; try congruence); destruct H. }
  destruct (value o) as [[|] msg] eqn:V; simpl; rewrite ?V; simpl; tauto.
Qed.

(** The empty message, sent while the port is open. *)
Lemma api_send_empty_rejected_started :
  api_send [] write_ok (sys_globals started)
  = mkOut (mkSendResponse (Py.lit "error") (Py.lit "Empty message"))
      (sys_globals started) [].
Proof.
  exact (proj1 (api_send_empty_rejected [] write_ok (sys_globals started))
           eq_refl).
Defined.

End Send.

(** ** The [last_id] argument of the read route *)

Section LastId.

Lemma digit_range (c : N) :
  Py.is_digit c = true -> (0x30 <= c <= 0x39)%N.
Proof.
  unfold Py.is_digit. intros H. apply andb_true_iff in H as [H1 H2].
  apply N.leb_le in H1, H2. lia.
Qed.

Lemma to_ascii_digits (ds : list N) :
  Forall (fun c => Py.is_digit c = true) ds -> Py.to_ascii ds = ds.
Proof.
  induction 1 as [|c ds Hc _ IH]; simpl; [reflexivity|].
  apply digit_range in Hc.
  destruct (N.ltb_spec c 127); [|lia]. now rewrite IH.
Qed.

Lemma digits_all (acc : Z) (n : nat) (ds : list N) :
  Forall (fun c => Py.is_digit c = true) ds ->
  Py.digits false acc n ds
  = Some (fold_left (fun a c => (a * 10 + Z.of_N (c - 0x30))%Z) ds acc,
          (n + List.length ds)%nat, []).
Proof.
  intros H; revert acc n; induction H as [|c ds Hc _ IH]; intros acc n;
    simpl.
  - now rewrite Nat.add_0_r.
  - rewrite Hc. apply digit_range in Hc.
    destruct (N.eqb_spec c 0x5F); [lia|].
    rewrite IH. now rewrite Nat.add_succ_r.
Qed.

Lemma int_digits (ds : list N) :
  ds <> [] -> Forall (fun c => Py.is_digit c = true) ds ->
  Py.int ds
  = if (Py.MAX_STR_DIGITS <? List.length ds)%nat then None
    else Some (decimal_value ds).
Proof.
  intros Hn H. unfold Py.int. rewrite (to_ascii_digits ds H).
  destruct ds as [|c ds]; [contradiction|].
  pose proof (digit_range c (Forall_inv H)) as Hc.
  assert (S1 : Py.c_isspace c = false).
  { unfold Py.c_isspace.
    destruct (N.leb_spec c 0x0D), (N.eqb_spec c 0x20); lia. }
  cbn [Py.skip_space]. rewrite S1. cbn [Py.sign].
  destruct (N.eqb_spec c 0x2B); [lia|].
  destruct (N.eqb_spec c 0x2D); [lia|].
  destruct (N.eqb_spec c 0x5F); [lia|].
  rewrite (digits_all 0 0 (c :: ds) H).
  change (0 + List.length (c :: ds))%nat with (S (List.length ds)).
  change (List.length (c :: ds)) with (S (List.length ds)).
  cbv iota beta.
  destruct (Py.MAX_STR_DIGITS <? S (List.length ds))%nat; reflexivity.
Qed.

(** [int] reads a plain run of ASCII digits, of no more digits than the
    limit, as the number it stands for. *)
Lemma int_decimal (ds : list N) :
  ds <> [] -> Forall (fun c => Py.is_digit c = true) ds ->
  (List.length ds <= Py.MAX_STR_DIGITS)%nat ->
  Py.int ds = Some (decimal_value ds).
Proof.
  intros Hn H L. rewrite (int_digits ds Hn H).
  now apply Nat.ltb_ge in L as ->.
Qed.

(** It refuses a longer run. *)
Lemma int_too_long (ds : list N) :
  Forall (fun c => Py.is_digit c = true) ds ->
  (Py.MAX_STR_DIGITS < List.length ds)%nat -> Py.int ds = None.
Proof.
  intros H L. assert (Hn : ds <> []) by (intros ->; simpl in L; lia).
  rewrite (int_digits ds Hn H). now apply Nat.ltb_lt in L as ->.
Qed.

(** C10. When the [last_id] argument is there and [int] does not accept
    it, [api_receive] ends with the [ValueError] of the conversion and no
    answer; the buffer is not looked at (whatever the globals hold, the
    outcome is the same), and the globals and the port are left as they
    were. *)
Theorem api_receive_bad_last_id :
  forall (arg : Py.str) (g : Globals),
    Py.int arg = None ->
    api_receive (Some arg) g = mkOut (inl ValueError) g []
    /\ forall g', value (api_receive (Some arg) g') = inl ValueError.
Proof.
  intros arg g E. unfold api_receive. now rewrite E.
Qed.

(** The argument [last_id=abc] after A, B and C were received. *)
Lemma api_receive_bad_last_id_abc :
  api_receive (Some (Py.lit "abc")) (sys_globals (run started abc))
  = mkOut (inl ValueError) (sys_globals (run started abc)) [].
Proof.
  exact (proj1 (api_receive_bad_last_id (Py.lit "abc")
                  (sys_globals (run started abc)) eq_refl)).
Defined.

(** Strings that [int] refuses: empty, blank, a fraction, a hexadecimal
    literal, a sign alone, a misplaced underscore; and strings it
    accepts besides plain digits. *)
Example int_refused :
  map Py.int [Py.lit ""; Py.lit "  "; Py.lit "1.5"; Py.lit "0x10";
              Py.lit "-"; Py.lit "1__0"; Py.lit "_1"; Py.lit "12a"]
  = [None; None; None; None; None; None; None; None].
Proof. reflexivity. Qed.

Example int_accepted :
  map Py.int [Py.lit "12"; Py.lit " 12 "; Py.lit "-5"; Py.lit "+5";
              Py.lit "1_000"; [0x661; 0x662]%N]
  = [Some 12; Some 12; Some (-5); Some 5; Some 1000; Some 12]%Z.
Proof. reflexivity. Qed.

End LastId.

(** ** Reconnection *)

Section Reconnect.

Lemma last_cons {A : Type} (x d : A) (l : list A) :
  last (x :: l) d = last l x.
Proof.
  revert x d; induction l as [|y l IH]; intros x d; [reflexivity|].
  change (last (x :: y :: l) d) with (last (y :: l) d).
  now rewrite (IH y d), (IH y x).
Qed.

(** [setup_serial] lists the devices before it opens one. *)
Lemma setup_serial_trace (c : list Py.str) (o : bool) (g : Globals) :
  In Glob (trace (setup_serial c o g)).
Proof.
  unfold setup_serial.
  destruct (serial_port g), (select_port c), o; simpl; auto.
Qed.

Lemma poll_trace (env : LoopEnv) (e : event) :
  In e (snd (poll env)) -> e = InWaiting \/ e = Readline.
Proof.
  unfold poll.
  destruct (in_waiting env) as [n| |t]; simpl; [|intuition|intuition].
  destruct (0 <? n)%Z; simpl; [|intuition].
  destruct (readline env) as [raw| |t]; simpl; [|intuition|intuition].
  destruct (Py.decode Py.Ignore raw) as [s|]; simpl; [|intuition].
  destruct (Py.truthy (Py.rstrip s)); simpl; intuition.
Qed.

(** What a turn of the loop does about reconnecting. *)
Lemma loop_body_attempt (env : LoopEnv) (st : Receiver) (g : Globals) :
  let o := loop_body env st g in
  if negb (usb_connected g)
     && (RECONNECT_INTERVAL <=? time env - last_reconnect_attempt st)%float
  then In Glob (trace o) /\ last_reconnect_attempt (value o) = time env
  else (forall e, In e (trace o) ->
                  e = InWaiting \/ e = Readline \/ e = Close)
       /\ last_reconnect_attempt (value o) = last_reconnect_attempt st.
Proof.
  unfold loop_body. destruct (usb_connected g); simpl.
  - destruct (poll env) as [[line| | |] evs] eqn:P; simpl; split;
      try reflexivity; intros e He;
      try (apply in_app_or in He as [He|[<-|[]]]; [|now auto]);
      (destruct (poll_trace env e) as [->| ->];
       [rewrite P; exact He|auto|auto]).
  - destruct (_ <=? _)%float; simpl; split; auto.
    + apply setup_serial_trace.
    + intros e [].
Qed.

(** The local [last_reconnect_attempt] is the clock reading of the last
    attempt the loop made, and the initial 0 before the first one. *)
Lemma last_attempt_run (s : System) (l : list action) :
  match sys_receiver s, sys_receiver (run s l) with
  | Some st, Some st' =>
      last_reconnect_attempt st'
      = last (attempts s l) (last_reconnect_attempt st)
  | None, None => attempts s l = []
  | _, _ => False
  end.
Proof.
  revert s; induction l as [|a l IH]; intros s; simpl.
  - now destruct (sys_receiver s).
  - specialize (IH (step s a)).
    destruct s as [g [st|]], a as [env|msg env|arg]; simpl in *;
      try exact IH.
    unfold loop_body in *.
    destruct (usb_connected g); simpl in *.
    + destruct (poll env) as [[line| | |] evs]; simpl in *; exact IH.
    + destruct (_ <=? _)%float; simpl in *; [|exact IH].
      destruct (sys_receiver (run _ l)); [|exact IH].
      rewrite IH. symmetry. exact (last_cons (time env) _ _).
Qed.

(** The port is lost at clock reading 1000, and the next turn of the
    loop, a sixteenth of a second later, already tries to open it
    again. *)
Lemma reconnect_right_after_failure :
  usb_connected (sys_globals started) = true
  /\ usb_connected
       (sys_globals (step started (Tick (unplugged 1000)))) = false
  /\ attempts started [Tick (unplugged 1000); Tick (idle 1000.0625)]
     = [1000.0625%float]
  /\ (1000.0625 - 1000 <? RECONNECT_INTERVAL)%float = true
  /\ usb_connected
       (sys_globals (run started [Tick (unplugged 1000);
                                  Tick (idle 1000.0625)])) = true.
Proof. repeat split. Qed.

(** C8, amended. Once the receiver thread runs, its local
    [last_reconnect_attempt] is the clock reading of the last attempt the
    loop made (0 before the first). A turn of the loop calls
    [setup_serial], and so lists and opens a device, exactly when the
    connection is closed and the clock is at least the reconnect interval
    of 2 seconds past that reading; the turn then records its own clock
    reading. Any other turn opens nothing and keeps the reading. How long
    ago the connection failed plays no part. *)
Theorem reconnect_throttled :
  forall (c : list Py.str) (o : bool) (l : list action) (env : LoopEnv),
    let s0 := main c o in
    let s := run s0 l in
    match sys_receiver s with
    | None => attempts s0 l = [] /\ step s (Tick env) = s
    | Some st =>
        let t := loop_body env st (sys_globals s) in
        last_reconnect_attempt st = last (attempts s0 l) 0%float
        /\ (In Glob (trace t) <->
            usb_connected (sys_globals s) = false
            /\ (RECONNECT_INTERVAL
                <=? time env - last_reconnect_attempt st)%float = true)
        /\ (In Glob (trace t) ->
            attempted s (Tick env) = [time env]
            /\ last_reconnect_attempt (value t) = time env)
        /\ (~ In Glob (trace t) ->
            attempted s (Tick env) = []
            /\ last_reconnect_attempt (value t) = last_reconnect_attempt st
            /\ forall p, ~ In (Open p) (trace t))
    end.
Proof.
  intros c o l env s0 s.
  pose proof (last_attempt_run s0 l) as L. fold s in L.
  destruct (sys_receiver s) as [st|] eqn:Er.
  - assert (E0 : sys_receiver s0 = Some (mkReceiver 0 0%float)
                 \/ sys_receiver s0 = None).
    { unfold s0, main. simpl. destruct (value _); auto. }
    destruct E0 as [E0|E0]; rewrite E0 in L; [|contradiction].
    simpl in L. intros t.
    pose proof (loop_body_attempt env st (sys_globals s)) as A.
    fold t in A. cbv zeta in A. unfold attempted. rewrite Er.
    destruct (usb_connected (sys_globals s)); simpl in A |- *.
    + destruct A as [A1 A2].
      assert (NG : ~ In Glob (trace t)).
      { intros H. apply A1 in H as [F|[F|F]]; discriminate. }
      repeat split; auto; try tauto.
      * intros [F _]. discriminate.
      * intros p Hp. apply A1 in Hp as [F|[F|F]]; discriminate.
    + destruct (_ <=? _)%float.
      * destruct A as [A1 A2].
        repeat split; auto; try tauto; try (intros; contradiction).
      * destruct A as [A1 A2].
        assert (NG : ~ In Glob (trace t)).
        { intros H. apply A1 in H as [F|[F|F]]; discriminate. }
        repeat split; auto; try tauto.
        -- intros [_ F]. discriminate.
        -- intros p Hp. apply A1 in Hp as [F|[F|F]]; discriminate.
  - destruct (sys_receiver s0); [contradiction|].
    split; [exact L|]. simpl. now rewrite Er.
Qed.

End Reconnect.

(** ** Decoding of received lines *)

Section Bits.

Local Open Scope N_scope.

Lemma bounded_forall (P : N -> bool) (n : nat) :
  forallb P (map N.of_nat (seq 0 n)) = true ->
  forall k, k < N.of_nat n -> P k = true.
Proof.
  intros H k Hk. rewrite forallb_forall in H. apply H.
  apply in_map_iff. exists (N.to_nat k).
  split; [apply N2Nat.id|apply in_seq; lia].
Qed.

Lemma lor_80 (k : N) : k < 64 -> N.lor 0x80 k = 0x80 + k.
Proof.
  intros H. apply N.eqb_eq.
  now apply (bounded_forall (fun k => N.lor 0x80 k =? 0x80 + k) 64).
Qed.

Lemma lor_C0 (k : N) : k < 32 -> N.lor 0xC0 k = 0xC0 + k.
Proof.
  intros H. apply N.eqb_eq.
  now apply (bounded_forall (fun k => N.lor 0xC0 k =? 0xC0 + k) 32).
Qed.

Lemma lor_E0 (k : N) : k < 16 -> N.lor 0xE0 k = 0xE0 + k.
Proof.
  intros H. apply N.eqb_eq.
  now apply (bounded_forall (fun k => N.lor 0xE0 k =? 0xE0 + k) 16).
Qed.

Lemma lor_F0 (k : N) : k < 8 -> N.lor 0xF0 k = 0xF0 + k.
Proof.
  intros H. apply N.eqb_eq.
  now apply (bounded_forall (fun k => N.lor 0xF0 k =? 0xF0 + k) 8).
Qed.

(** The low six bits of a number and the bits above them. *)
Lemma shiftr_6 (hi lo : N) : lo < 64 -> N.shiftr (hi * 64 + lo) 6 = hi.
Proof.
  intros H. rewrite N.shiftr_div_pow2. change (2 ^ 6) with 64.
  symmetry. apply (N.div_unique _ _ _ lo); lia.
Qed.

Lemma land_3F (hi lo : N) : lo < 64 -> N.land (hi * 64 + lo) 0x3F = lo.
Proof.
  intros H. change 0x3F with (N.ones 6). rewrite N.land_ones.
  change (2 ^ 6) with 64.
  symmetry. apply (N.mod_unique _ _ hi); lia.
Qed.

Lemma is_cont_range (b : N) :
  Py.is_cont b = true -> 0x80 <= b <= 0xBF.
Proof.
  unfold Py.is_cont. intros H. apply andb_true_iff in H as [H1 H2].
  apply N.leb_le in H1, H2. lia.
Qed.

Lemma second_of_3_range (b1 b2 : N) :
  Py.second_of_3 b1 b2 = true ->
  0x80 <= b2 <= 0xBF /\ (b1 = 0xE0 -> 0xA0 <= b2) /\ (b1 = 0xED -> b2 < 0xA0).
Proof.
  unfold Py.second_of_3. intros H. apply andb_true_iff in H as [H1 H2].
  apply is_cont_range in H1. apply negb_true_iff in H2.
  destruct (N.ltb_spec b2 0xA0); apply N.eqb_neq in H2; lia.
Qed.

Lemma second_of_4_range (b1 b2 : N) :
  Py.second_of_4 b1 b2 = true ->
  0x80 <= b2 <= 0xBF /\ (b1 = 0xF0 -> 0x90 <= b2) /\ (b1 = 0xF4 -> b2 < 0x90).
Proof.
  unfold Py.second_of_4. intros H. apply andb_true_iff in H as [H1 H2].
  apply is_cont_range in H1. apply negb_true_iff in H2.
  destruct (N.ltb_spec b2 0x90); apply N.eqb_neq in H2; lia.
Qed.

End Bits.

Section Utf8Forms.

Local Open Scope N_scope.

Lemma scalar_intro (c : N) :
  c <= 0x10FFFF -> c < 0xD800 \/ 0xDFFF < c -> Py.scalar c.
Proof.
  intros H1 H2. split; [exact H1|]. unfold Py.is_surrogate.
  destruct (N.leb_spec 0xD800 c), (N.leb_spec c 0xDFFF);
    try reflexivity; lia.
Qed.

Lemma encode_char1 (b1 : N) :
  b1 < 0x80 -> Py.encode_char b1 = Some [b1] /\ Py.scalar b1.
Proof.
  intros H. split; [|apply scalar_intro; lia].
  unfold Py.encode_char. now apply N.ltb_lt in H as ->.
Qed.

Lemma encode_char2 (b1 b2 : N) :
  0xC2 <= b1 < 0xE0 -> Py.is_cont b2 = true ->
  Py.encode_char (Py.char2 b1 b2) = Some [b1; b2]
  /\ Py.scalar (Py.char2 b1 b2).
Proof.
  intros H1 H2. apply is_cont_range in H2.
  remember (b1 - 0xC0) as h eqn:Eh. remember (b2 - 0x80) as l eqn:El.
  assert (E : Py.char2 b1 b2 = h * 64 + l).
  { unfold Py.char2. rewrite !N.shiftl_mul_pow2.
    change (2 ^ 6) with 64. lia. }
  rewrite E. split; [|apply scalar_intro; lia].
  unfold Py.encode_char.
  destruct (N.ltb_spec (h * 64 + l) 0x80); [lia|].
  destruct (N.ltb_spec (h * 64 + l) 0x800); [|lia].
  rewrite shiftr_6, land_3F, lor_C0, lor_80 by lia.
  do 2 f_equal; [|f_equal]; lia.
Qed.

Lemma encode_char3 (b1 b2 b3 : N) :
  0xE0 <= b1 < 0xF0 -> Py.second_of_3 b1 b2 = true ->
  Py.is_cont b3 = true ->
  Py.encode_char (Py.char3 b1 b2 b3) = Some [b1; b2; b3]
  /\ Py.scalar (Py.char3 b1 b2 b3).
Proof.
  intros H1 H2 H3. apply second_of_3_range in H2.
  apply is_cont_range in H3.
  remember (b1 - 0xE0) as h eqn:Eh. remember (b2 - 0x80) as m eqn:Em.
  remember (b3 - 0x80) as l eqn:El.
  assert (E : Py.char3 b1 b2 b3 = (h * 64 + m) * 64 + l).
  { unfold Py.char3. rewrite !N.shiftl_mul_pow2.
    change (2 ^ 6) with 64. change (2 ^ 12) with 4096. lia. }
  rewrite E. split; [|apply scalar_intro; lia].
  unfold Py.encode_char.
  destruct (N.ltb_spec ((h * 64 + m) * 64 + l) 0x80); [lia|].
  destruct (N.ltb_spec ((h * 64 + m) * 64 + l) 0x800); [lia|].
  replace (Py.is_surrogate ((h * 64 + m) * 64 + l)) with false
    by (symmetry; apply scalar_intro; lia).
  destruct (N.ltb_spec ((h * 64 + m) * 64 + l) 0x10000); [|lia].
  change 12 with (6 + 6). rewrite <- N.shiftr_shiftr.
  rewrite !shiftr_6, !land_3F, lor_E0, !lor_80 by lia.
  do 2 f_equal; [|f_equal; [|f_equal]]; lia.
Qed.

Lemma encode_char4 (b1 b2 b3 b4 : N) :
  0xF0 <= b1 < 0xF5 -> Py.second_of_4 b1 b2 = true ->
  Py.is_cont b3 = true -> Py.is_cont b4 = true ->
  Py.encode_char (Py.char4 b1 b2 b3 b4) = Some [b1; b2; b3; b4]
  /\ Py.scalar (Py.char4 b1 b2 b3 b4).
Proof.
  intros H1 H2 H3 H4. apply second_of_4_range in H2.
  apply is_cont_range in H3, H4.
  remember (b1 - 0xF0) as h eqn:Eh. remember (b2 - 0x80) as m eqn:Em.
  remember (b3 - 0x80) as l eqn:El. remember (b4 - 0x80) as k eqn:Ek.
  assert (E : Py.char4 b1 b2 b3 b4 = ((h * 64 + m) * 64 + l) * 64 + k).
  { unfold Py.char4. rewrite !N.shiftl_mul_pow2.
    change (2 ^ 6) with 64. change (2 ^ 12) with 4096.
    change (2 ^ 18) with 262144. lia. }
  rewrite E. split; [|apply scalar_intro; lia].
  unfold Py.encode_char.
  destruct (N.ltb_spec (((h * 64 + m) * 64 + l) * 64 + k) 0x80); [lia|].
  destruct (N.ltb_spec (((h * 64 + m) * 64 + l) * 64 + k) 0x800); [lia|].
  replace (Py.is_surrogate (((h * 64 + m) * 64 + l) * 64 + k)) with false
    by (symmetry; apply scalar_intro; lia).
  destruct (N.ltb_spec (((h * 64 + m) * 64 + l) * 64 + k) 0x10000);
    [lia|].
  destruct (N.leb_spec (((h * 64 + m) * 64 + l) * 64 + k) 0x10FFFF);
    [|lia].
  change 18 with (6 + (6 + 6)). change 12 with (6 + 6).
  rewrite <- !N.shiftr_shiftr.
  rewrite !shiftr_6, !land_3F, lor_F0, !lor_80 by lia.
  do 2 f_equal; [|f_equal; [|f_equal; [|f_equal]]]; lia.
Qed.

End Utf8Forms.

Section Decoding.

Lemma reencodes_char (c : N) (form bs : list N) (its : list Py.item) :
  Py.encode_char c = Some form /\ Py.scalar c ->
  reencodes bs its -> reencodes (form ++ bs) (Py.Char c :: its).
Proof.
  intros [E S] [F (kept & K & Q)]. split; simpl.
  - now constructor.
  - exists (form ++ kept). rewrite E, K. split; [reflexivity|].
    apply subseq_app; [apply subseq_refl|exact Q].
Qed.

Lemma reencodes_bad (n : nat) (skipped bs : list N) (its : list Py.item) :
  reencodes bs its -> reencodes (skipped ++ bs) (Py.Bad n :: its).
Proof.
  intros [F (kept & K & Q)]. split; simpl; [exact F|].
  exists kept. split; [exact K|].
  change kept with ([] ++ kept).
  apply subseq_app; [apply subseq_nil_l|exact Q].
Qed.

Lemma reencodes_end (n : nat) (bs : list N) : reencodes bs [Py.Bad n].
Proof.
  split; simpl; [constructor|].
  exists []. split; [reflexivity|apply subseq_nil_l].
Qed.

(** The scan keeps the well-formed characters of its input, as they
    are, and nothing else. *)
Lemma scan_reencodes (bs : list N) : reencodes bs (Py.scan bs).
Proof.
  apply scan_ind; clear bs; intros; subst;
    repeat match goal with
           | H : (_ <? _)%N = true |- _ => apply N.ltb_lt in H
           | H : (_ <? _)%N = false |- _ => apply N.ltb_ge in H
           end;
    try apply reencodes_end.
  - split; [constructor|]. exists []. split; constructor.
  - apply (reencodes_char b1 [b1]); [apply encode_char1|]; assumption.
  - now apply (reencodes_bad 1 [b1]).
  - apply (reencodes_char _ [b1; b2]); [apply encode_char2|]; auto.
  - now apply (reencodes_bad 1 [b1]).
  - apply (reencodes_char _ [b1; b2; b3]); [apply encode_char3|]; auto.
  - now apply (reencodes_bad 2 [b1; b2]).
  - now apply (reencodes_bad 1 [b1]).
  - apply (reencodes_char _ [b1; b2; b3; b4]); [apply encode_char4|];
      auto.
  - now apply (reencodes_bad 3 [b1; b2; b3]).
  - now apply (reencodes_bad 2 [b1; b2]).
  - now apply (reencodes_bad 1 [b1]).
  - now apply (reencodes_bad 1 [b1]).
Qed.

(** ['ignore'] never raises: it returns the characters of the scan. *)
Lemma handle_ignore (its : list Py.item) :
  Py.handle Py.Ignore its = Some (chars its).
Proof.
  induction its as [|[c|n] its IH]; simpl; [reflexivity| |exact IH].
  now rewrite IH.
Qed.

(** Where ['strict'] returns, ['ignore'] returns the same. *)
Lemma handle_strict (its : list Py.item) (s : Py.str) :
  Py.handle Py.Strict its = Some s -> chars its = s.
Proof.
  revert s; induction its as [|[c|n] its IH]; simpl; intros s.
  - now intros [= <-].
  - destruct (Py.handle Py.Strict its) as [s'|]; simpl; [|discriminate].
    intros [= <-]. now rewrite (IH s').
  - discriminate.
Qed.

Lemma byte_of_to_N (b : byte) : Py.byte_of (Byte.to_N b) = b.
Proof. unfold Py.byte_of. now rewrite Byte.of_to_N. Qed.

Lemma subseq_map {A B : Type} (f : A -> B) (l1 l2 : list A) :
  subseq l1 l2 -> subseq (map f l1) (map f l2).
Proof. induction 1; simpl; auto. Qed.

(** A received line with a byte that is no UTF-8: the loop stores "A",
    where a decoder that replaces malformed input has U+FFFD before
    the A. *)
Lemma invalid_byte_dropped :
  Py.decode Py.Ignore [xff; x41; x0a]%byte = Some [0x41; 0x0A]%N
  /\ Py.decode Py.Replace [xff; x41; x0a]%byte
     = Some [0xFFFD; 0x41; 0x0A]%N
  /\ fst (poll (rx [xff; x41; x0a]%byte "12:00:00")) = Line [0x41%N].
Proof. repeat split. Qed.

(** C4, amended. Whatever bytes a received line holds, decoding it does
    not raise: the result is a string of scalar values, the one the
    strict decoder gives where that one accepts the line. Malformed byte
    sequences are left out, not replaced: the result, encoded again, is
    the line with some bytes dropped and none changed or added. So the
    turn of the loop that reads the line stores it or discards it as
    blank, and never ends in the handler for unexpected exceptions. *)
Theorem decode_ignore_total :
  forall raw : Py.bytes,
  exists s : Py.str,
    Py.decode Py.Ignore raw = Some s
    /\ Forall Py.scalar s
    /\ (exists kept, Py.encode s = Some kept /\ subseq kept raw)
    /\ (forall s', Py.decode Py.Strict raw = Some s' -> s' = s)
    /\ (forall env n,
          in_waiting env = Done n -> (0 < n)%Z -> readline env = Done raw ->
          fst (poll env)
          = if Py.truthy (Py.rstrip s) then Line (Py.rstrip s)
            else Nothing).
Proof.
  intros raw. exists (chars (Py.scan (map Byte.to_N raw))).
  destruct (scan_reencodes (map Byte.to_N raw)) as [F (kept & K & Q)].
  assert (D : Py.decode Py.Ignore raw
              = Some (chars (Py.scan (map Byte.to_N raw))))
    by apply handle_ignore.
  repeat split; auto.
  - exists (map Py.byte_of kept). unfold Py.encode. rewrite K.
    split; [reflexivity|].
    assert (R : map Py.byte_of (map Byte.to_N raw) = raw).
    { rewrite map_map.
      rewrite (map_ext _ (fun b => b) byte_of_to_N). apply map_id. }
    rewrite <- R. now apply subseq_map.
  - intros s' H. symmetry. now apply handle_strict.
  - intros env n Hw Hn Hr. unfold poll. rewrite Hw.
    apply Z.ltb_lt in Hn as ->. rewrite Hr, D.
    now destruct (Py.truthy _).
Qed.

End Decoding.

(** ** The connection state the routes report *)

Section Wiring.

Lemma wired_drop (g : Globals) : wired (drop_port g).
Proof. exact I. Qed.

Lemma wired_setup_serial (c : list Py.str) (o : bool) (g : Globals) :
  wired g -> wired (globals (setup_serial c o g)).
Proof.
  unfold setup_serial, wired. intros W.
  destruct (serial_port g) eqn:E, (select_port c), o; simpl;
    rewrite ?E; auto.
Qed.

Lemma wired_send_to_serial (m : Py.str) (env : SendEnv) (g : Globals) :
  wired g -> wired (globals (send_to_serial m env g)).
Proof.
  unfold send_to_serial. intros W.
  destruct (usb_connected g), (Py.encode (m ++ LF)), (write_result env);
    simpl; auto; exact I.
Qed.

Lemma wired_loop_body (env : LoopEnv) (st : Receiver) (g : Globals) :
  wired g -> wired (globals (loop_body env st g)).
Proof.
  unfold loop_body. intros W. destruct (usb_connected g).
  - destruct (poll env) as [[line| | |] evs]; simpl; auto; exact I.
  - destruct (_ <=? _)%float; simpl; auto.
    now apply wired_setup_serial.
Qed.

(** X1. The functions that write the connection globals keep port and
    path together, each taken from its first statement to its last with
    no other thread writing the globals in between: [main()] starts the
    server with globals that hold a port exactly when they hold its path
    (the port open, opened on that path, at 115200 baud), and from such
    globals [setup_serial()], a turn of the receiver loop,
    [send_to_serial()] and [api_send()] lead to such globals again. In
    such globals "connected" means the same as "a port is held" and as
    "a path is recorded", and [/api/status] and the page give the port
    as "N/A" when the server is not connected. *)
Theorem wired_kept :
  (forall c o, wired (sys_globals (main c o)))
  /\ forall g : Globals,
       wired g ->
       (forall c o, wired (globals (setup_serial c o g)))
       /\ (forall env st, wired (globals (loop_body env st g)))
       /\ (forall m env, wired (globals (send_to_serial m env g)))
       /\ (forall m env, wired (globals (api_send m env g)))
       /\ (usb_connected g = true <-> serial_port g <> None)
       /\ (usb_connected g = true <-> current_usb_port g <> None)
       /\ (forall sp, serial_port g = Some sp ->
             current_usb_port g = Some (port sp)
             /\ baudrate sp = 115200%Z /\ is_open sp = true)
       /\ (usb_connected g = false ->
           status_port (value (api_status g)) = Py.lit "N/A"
           /\ page_port (value (vex_page g)) = Py.lit "N/A").
Proof.
  split; [intros c o; now apply wired_setup_serial|].
  intros g W.
  split; [intros c o; now apply wired_setup_serial|].
  split; [intros env st; now apply wired_loop_body|].
  split; [intros m env; now apply wired_send_to_serial|].
  split.
  { intros m env. destruct m as [|c m]; [exact W|].
    rewrite api_send_globals by discriminate.
    now apply wired_send_to_serial. }
  unfold wired, usb_connected, api_status, vex_page in *. simpl.
  destruct (serial_port g) as [sp|], (current_usb_port g) as [p|];
    try contradiction.
  - destruct W as (<- & B & O). unfold USB_BAUD_RATE in B.
    repeat split; auto; try discriminate; congruence.
  - repeat split; auto; try discriminate; try congruence.
Qed.

(** The server after its start with two devices, and a send that loses
    the port. *)
Lemma wired_kept_started :
  wired (globals (send_to_serial (Py.lit "hi") write_lost
                    (sys_globals started))).
Proof.
  apply (proj2 wired_kept (sys_globals started)).
  exact (proj1 wired_kept [ACM1; ACM0] true).
Defined.

Lemma select_port_long (c : list Py.str) (p : Py.str) :
  select_port c = Some p -> (2 <= List.length c)%nat.
Proof.
  unfold select_port. rewrite sorted_length.
  destruct (Nat.ltb_spec (List.length c) 2); [discriminate|auto].
Qed.

Lemma select_port_short (c : list Py.str) :
  select_port c = None <-> (List.length c < 2)%nat.
Proof.
  unfold select_port. rewrite sorted_length.
  destruct (Nat.ltb_spec (List.length c) 2); split;
    try discriminate; auto; lia.
Qed.

(** X2. [setup_serial()] returns [True] exactly when at least two
    devices are listed and the chosen one opens; the server is then
    connected on the chosen path. When it returns [False] the server
    holds no port, also when it held one before: a port held on entry is
    closed first, whatever follows, and the devices are listed before any
    is opened. The buffer is not touched. *)
Theorem setup_serial_outcome :
  forall (c : list Py.str) (o : bool) (g : Globals),
    let r := setup_serial c o g in
    (value r = true <-> (2 <= List.length c)%nat /\ o = true)
    /\ (value r = true ->
        usb_connected (globals r) = true
        /\ current_usb_port (globals r) = select_port c
        /\ exists p, select_port c = Some p /\ In (Open p) (trace r))
    /\ (value r = false ->
        serial_port (globals r) = None
        /\ (wired g -> current_usb_port (globals r) = None))
    /\ (forall sp, serial_port g = Some sp ->
          exists rest, trace r = Close :: Glob :: rest)
    /\ (serial_port g = None -> exists rest, trace r = Glob :: rest)
    /\ received_messages (globals r) = received_messages g.
Proof.
  intros c o g r. subst r.
  pose proof (select_port_long c) as S.
  pose proof (proj1 (select_port_short c)) as N.
  split; [|split; [|split; [|split; [|split]]]].
  - unfold setup_serial.
    destruct (serial_port g), (select_port c) as [p|] eqn:E, o; simpl;
      split; intros H; try discriminate; try reflexivity;
      try (split; [now apply (S p)|reflexivity]);
      destruct H as [L F]; try discriminate;
      specialize (N eq_refl); lia.
  - unfold setup_serial.
    destruct (serial_port g), (select_port c) as [p|] eqn:E, o; simpl;
      try discriminate; intros _; repeat split;
      exists p; split; auto; simpl; auto.
  - unfold setup_serial, wired.
    destruct (serial_port g) eqn:E, (select_port c), o; simpl;
      try discriminate; intros _; split; auto;
      rewrite ?E; destruct (current_usb_port g); tauto.
  - intros sp E. unfold setup_serial. rewrite E.
    destruct (select_port c), o; simpl; eexists; reflexivity.
  - intros E. unfold setup_serial. rewrite E.
    destruct (select_port c), o; simpl; eexists; reflexivity.
  - apply setup_serial_buffer.
Qed.

End Wiring.

(** ** What a send answers *)

Section SendAnswers.

(** X3. An answer "ok" of [api_send] stands for a write: when the
    answer is "ok", the message is not empty, the connection was open,
    the text could be encoded and [write] returned; the bytes of the
    text and a line feed were written, nothing else was done to the
    port, and no global was changed. On a closed connection a message
    that is not empty is answered with the error "USB serial not
    connected", and neither the port nor the globals are touched. *)
Theorem api_send_ok_written :
  forall (m : Py.str) (env : SendEnv) (g : Globals),
    let o := api_send m env g in
    (status (value o) = Py.lit "ok" ->
     m <> [] /\ usb_connected g = true /\ write_result env = Done tt
     /\ globals o = g
     /\ message (value o) = Py.lit "Message sent"
     /\ exists data,
          Py.encode m = Some data
          /\ Py.encode (m ++ LF) = Some (data ++ [x0a]%byte)
          /\ trace o = [Write (data ++ [x0a]%byte)])
    /\ (m <> [] -> usb_connected g = false ->
        o = mkOut (mkSendResponse (Py.lit "error")
                     (Py.lit "USB serial not connected")) g []).
Proof.
  intros m env g o. subst o. split.
  - destruct m as [|c m]; [discriminate|].
    unfold api_send, send_to_serial. rewrite encode_LF. simpl.
    destruct (usb_connected g); [|discriminate].
    destruct (Py.encode (c :: m)) as [data|]; simpl; [|discriminate].
    destruct (write_result env) as [[]| |t]; simpl; try discriminate.
    intros _. repeat split; try discriminate. now exists data.
  - intros Hm U. destruct m as [|c m]; [contradiction|].
    unfold api_send, send_to_serial. simpl. now rewrite U.
Qed.

Lemma send_trace_shape (m : Py.str) (env : SendEnv) (g : Globals) :
  trace (api_send m env g) = []
  \/ exists data, trace (api_send m env g) = [Write data]
                  \/ trace (api_send m env g) = [Write data; Close].
Proof.
  unfold api_send. destruct m as [|c m]; simpl; [now left|].
  unfold send_to_serial.
  destruct (usb_connected g); [|now left].
  destruct (Py.encode ((c :: m) ++ LF)) as [data|]; [|now left].
  destruct (write_result env); simpl; right; exists data; auto.
Qed.

Lemma step_request_closed (s : System) (a : action) :
  is_request a -> usb_connected (sys_globals s) = false -> step s a = s.
Proof.
  intros R U. pose proof (request_keeps_closed s a R U) as E.
  destruct s as [g r], a as [env|m env|arg]; simpl in *;
    [contradiction| |]; now rewrite E.
Qed.

(** X4. The routes leave the receiver alone: a send changes neither the
    buffer nor the locals of the receiver thread, appends nothing, makes
    no reconnection attempt and never lists or opens a device; on a
    closed connection it changes nothing at all. A read changes
    nothing, whatever its argument. *)
Theorem requests_leave_receiver :
  forall s : System,
    (forall m env,
       let s' := step s (PostSend m env) in
       sys_receiver s' = sys_receiver s
       /\ received_messages (sys_globals s')
          = received_messages (sys_globals s)
       /\ history s [PostSend m env] = []
       /\ attempts s [PostSend m env] = []
       /\ (forall e, In e (trace (api_send m env (sys_globals s))) ->
             e = Close \/ exists data, e = Write data)
       /\ (usb_connected (sys_globals s) = false -> s' = s))
    /\ (forall arg, step s (GetReceive arg) = s).
Proof.
  intros s. split.
  - intros m env s'. subst s'.
    split; [reflexivity|]. split; [apply api_send_buffer|].
    split; [simpl; now destruct (sys_receiver s)|].
    split; [simpl; now destruct (sys_receiver s)|]. split.
    + destruct (send_trace_shape m env (sys_globals s))
        as [T|[data [T|T]]]; rewrite T; simpl; intuition eauto.
    + intros U. now apply step_request_closed.
  - intros arg. destruct s as [g r]. simpl.
    now rewrite api_receive_globals.
Qed.

End SendAnswers.

(** ** A start without the device *)

Section Startup.

Lemma step_stopped (s : System) (a : action) :
  sys_receiver s = None -> usb_connected (sys_globals s) = false ->
  step s a = s.
Proof.
  intros R U. destruct a as [env|m env|arg];
    [|now apply step_request_closed..].
  simpl. now rewrite R.
Qed.

Lemma run_stopped (s : System) (l : list action) :
  sys_receiver s = None -> usb_connected (sys_globals s) = false ->
  run s l = s /\ history s l = [] /\ attempts s l = [].
Proof.
  intros R U. induction l as [|a l IH]; simpl; [auto|].
  rewrite (step_stopped s a R U).
  destruct IH as (I1 & I2 & I3). repeat split; auto.
  - rewrite I2. unfold appended. rewrite R. now destruct a.
  - rewrite I3. unfold attempted. rewrite R. now destruct a.
Qed.

(** X6. When the first [setup_serial()] of [main()] fails, because
    fewer than two devices are listed or the port does not open, the
    receiver thread is never started, and nothing that happens later
    brings the connection up: after any number of requests the server is
    as it started, not connected, with an empty buffer, and no
    reconnection is ever attempted. *)
Theorem start_without_device :
  forall (c : list Py.str) (o : bool),
    (List.length c < 2)%nat \/ o = false ->
    forall l : list action,
      run (main c o) l = mkSystem initial None
      /\ history (main c o) l = []
      /\ attempts (main c o) l = []
      /\ (forall arg r,
            value (api_receive arg (sys_globals (run (main c o) l)))
            = inr r ->
            messages r = [] /\ connected r = false
            /\ usb_port r = Py.lit "N/A").
Proof.
  intros c o H l.
  assert (M : main c o = mkSystem initial None).
  { unfold main, setup_serial. simpl. destruct H as [H| ->].
    - apply select_port_short in H. now rewrite H.
    - now destruct (select_port c). }
  rewrite M.
  destruct (run_stopped (mkSystem initial None) l eq_refl eq_refl)
    as (R1 & R2 & R3).
  rewrite R1. repeat split; auto; unfold api_receive in H0;
    destruct (match arg with Some s => Py.int s | None => Some 0%Z end);
    simpl in H0; try discriminate; now injection H0 as <-.
Qed.

(** One device only: turns of the loop and requests change nothing. *)
Lemma start_without_device_one :
  run (main [ACM0] true)
    [Tick (idle 10); PostSend (Py.lit "hi") write_ok; Tick (idle 20)]
  = mkSystem initial None.
Proof.
  apply (start_without_device [ACM0] true); left; simpl; lia.
Defined.

End Startup.

(** ** The port the server is connected to *)

Section ConnectedPort.

Lemma setup_serial_port (c : list Py.str) (o : bool) (g : Globals) :
  let g' := globals (setup_serial c o g) in
  current_usb_port g' = current_usb_port g
  \/ current_usb_port g' = None
  \/ exists p, select_port c = Some p /\ current_usb_port g' = Some p.
Proof.
  unfold setup_serial.
  destruct (serial_port g), (select_port c) as [p|], o; simpl; eauto.
Qed.

(** A step keeps the recorded path, forgets it, or records the path
    chosen from the devices listed in this turn of the loop. *)
Lemma step_port (s : System) (a : action) :
  let p' := current_usb_port (sys_globals (step s a)) in
  p' = current_usb_port (sys_globals s)
  \/ p' = None
  \/ exists env p, a = Tick env
                   /\ select_port (acm_paths env) = Some p /\ p' = Some p.
Proof.
  destruct s as [g r], a as [env|m env|arg]; simpl.
  - destruct r as [st|]; simpl; [|now left].
    unfold loop_body. destruct (usb_connected g).
    + destruct (poll env) as [[line| | |] evs]; simpl; auto.
    + destruct (_ <=? _)%float; simpl; [|now left].
      destruct (setup_serial_port (acm_paths env) (opens env) g)
        as [H|[H|(p & H1 & H2)]]; auto.
      right. right. exists env, p. auto.
  - destruct m as [|c m]; [now left|].
    rewrite api_send_globals by discriminate. unfold send_to_serial.
    destruct (usb_connected g), (Py.encode ((c :: m) ++ LF)),
             (write_result env); simpl; auto.
  - rewrite api_receive_globals. now left.
Qed.

(** X7. The path the server is connected to is never anything but the
    second of the sorted device paths of one listing: the listing
    [main()] found at the start, or the one a turn of the receiver loop
    found when it reconnected. *)
Theorem connected_path_selected :
  forall (c : list Py.str) (o : bool) (l : list action),
    match current_usb_port (sys_globals (run (main c o) l)) with
    | Some p =>
        exists listing,
          (listing = c
           \/ exists env, In (Tick env) l /\ listing = acm_paths env)
          /\ select_port listing = Some p
          /\ nth_error (Py.sorted listing) 1 = Some p
    | None => True
    end.
Proof.
  intros c o l.
  assert (N : forall listing p, select_port listing = Some p ->
                nth_error (Py.sorted listing) 1 = Some p).
  { intros listing p. unfold select_port.
    destruct (Nat.ltb_spec (List.length (Py.sorted listing)) 2);
      [discriminate|].
    intros [= <-]. now apply nth_error_nth'. }
  induction l as [|a l IH] using rev_ind.
  - simpl.
    destruct (setup_serial_port c o initial) as [H|[H|(p & H1 & H2)]].
    + now rewrite H.
    + now rewrite H.
    + rewrite H2. exists c. repeat split; auto. now apply N.
  - rewrite run_app. simpl.
    destruct (step_port (run (main c o) l) a)
      as [H|[H|(env & p & -> & H1 & H2)]].
    + rewrite H.
      destruct (current_usb_port (sys_globals (run (main c o) l)));
        [|exact I].
      destruct IH as (listing & [->|(env & I1 & ->)] & S & T).
      * exists c. repeat split; auto.
      * exists (acm_paths env). repeat split; auto.
        right. exists env. split; [|reflexivity].
        apply in_or_app. now left.
    + now rewrite H.
    + rewrite H2. exists (acm_paths env). repeat split; auto.
      * right. exists env. split; [|reflexivity].
        apply in_or_app. right. now left.
      * now apply N.
Qed.

End ConnectedPort.

(** ** Loss and recovery of the connection *)

Section LossAndRecovery.

Lemma poll_lost (env : LoopEnv) :
  fst (poll env) = Lost <->
  in_waiting env = SerialError
  \/ exists n, in_waiting env = Done n /\ (0 < n)%Z
               /\ readline env = SerialError.
Proof.
  unfold poll. destruct (in_waiting env) as [n| |t]; simpl.
  - destruct (Z.ltb_spec 0 n); simpl.
    + destruct (readline env) as [raw| |t]; simpl.
      * destruct (Py.decode Py.Ignore raw) as [s|]; simpl;
          [destruct (Py.truthy (Py.rstrip s))|]; simpl;
          (split; [discriminate|]);
          intros [F|(k & _ & _ & F)]; discriminate.
      * split; [|reflexivity]. intros _. right. exists n. auto.
      * split; [discriminate|].
        intros [F|(k & _ & _ & F)]; discriminate.
    + split; [discriminate|].
      intros [F|(k & [= <-] & F & _)]; [discriminate|lia].
  - split; auto.
  - split; [discriminate|].
    intros [F|(k & F & _)]; discriminate.
Qed.

(** X9. On an open connection, a turn of the receiver loop ends with the
    connection closed exactly when [in_waiting] or [readline] raised
    [SerialException] or [OSError]. The turn then closes the port as its
    last act and drops port and path, keeps the buffer and the locals of
    the loop, and makes no attempt to reconnect. *)
Theorem read_failure_closes :
  forall (env : LoopEnv) (st : Receiver) (g : Globals),
    usb_connected g = true ->
    let o := loop_body env st g in
    (usb_connected (globals o) = false <->
     in_waiting env = SerialError
     \/ exists n, in_waiting env = Done n /\ (0 < n)%Z
                  /\ readline env = SerialError)
    /\ (usb_connected (globals o) = false ->
        globals o = drop_port g
        /\ value o = st
        /\ (exists evs, trace o = evs ++ [Close])
        /\ ~ In Glob (trace o)
        /\ forall p, ~ In (Open p) (trace o)).
Proof.
  intros env st g U o.
  assert (T : forall e, In e (trace o) ->
                e = InWaiting \/ e = Readline \/ e = Close).
  { pose proof (loop_body_attempt env st g) as A. cbv zeta in A.
    rewrite U in A. simpl in A. apply A. }
  assert (E : usb_connected (globals o) = false <-> fst (poll env) = Lost).
  { subst o. unfold loop_body. rewrite U.
    destruct (poll env) as [[line| | |] evs]; simpl;
      try (split; [congruence|discriminate]).
    - unfold usb_connected in *. simpl.
      split; [congruence|discriminate].
    - split; reflexivity. }
  split; [rewrite E; apply poll_lost|].
  intros C. apply E in C. subst o. unfold loop_body in *. rewrite U in *.
  destruct (poll env) as [[line| | |] evs]; simpl in C; try discriminate.
  simpl. repeat split.
  - now exists evs.
  - intros H. apply T in H as [F|[F|F]]; discriminate.
  - intros p H. apply T in H as [F|[F|F]]; discriminate.
Qed.

(** The port is lost while A, B and C are in the buffer. *)
Lemma read_failure_closes_abc :
  globals (loop_body (unplugged 1000) (mkReceiver 3 0)
             (sys_globals (run started abc)))
  = drop_port (sys_globals (run started abc)).
Proof.
  apply (read_failure_closes (unplugged 1000) (mkReceiver 3 0)
           (sys_globals (run started abc)) eq_refl).
  reflexivity.
Defined.

(** X10. On a closed connection, a turn of the receiver loop whose
    clock is at least two seconds past the last attempt brings the
    connection up exactly when at least two devices are listed and the
    port opens, and then on the second of the sorted paths. Either way
    the turn records its clock reading as the time of the last attempt,
    and the buffer and the message counter are as before, so ids go on
    where they stopped. *)
Theorem reconnect_recovers :
  forall (env : LoopEnv) (st : Receiver) (g : Globals),
    usb_connected g = false ->
    (RECONNECT_INTERVAL
     <=? time env - last_reconnect_attempt st)%float = true ->
    let o := loop_body env st g in
    (usb_connected (globals o) = true <->
     (2 <= List.length (acm_paths env))%nat /\ opens env = true)
    /\ (usb_connected (globals o) = true ->
        current_usb_port (globals o) = select_port (acm_paths env)
        /\ nth_error (Py.sorted (acm_paths env)) 1
           = current_usb_port (globals o))
    /\ (usb_connected (globals o) = false -> serial_port (globals o) = None)
    /\ last_reconnect_attempt (value o) = time env
    /\ message_id (value o) = message_id st
    /\ received_messages (globals o) = received_messages g.
Proof.
  intros env st g U G o. subst o. unfold loop_body. rewrite U, G. simpl.
  unfold setup_serial.
  destruct (select_port (acm_paths env)) as [p|] eqn:S.
  - pose proof (select_port_long _ _ S) as L.
    assert (N : nth_error (Py.sorted (acm_paths env)) 1 = Some p).
    { unfold select_port in S.
      destruct (Nat.ltb_spec (List.length (Py.sorted (acm_paths env))) 2);
        [discriminate|].
      injection S as <-. now apply nth_error_nth'. }
    destruct (serial_port g), (opens env); simpl;
      repeat split; auto; try discriminate;
      try (intros [_ F]; discriminate).
  - apply select_port_short in S. pose proof U as U'.
    unfold usb_connected in U.
    destruct (serial_port g) eqn:E; simpl; rewrite ?E;
      repeat split; auto; try discriminate;
      try (intros [F _]; lia); try (rewrite U; discriminate);
      try congruence.
Qed.

(** The port lost at clock 1000 is opened again by the next turn. *)
Lemma reconnect_recovers_replugged :
  usb_connected
    (globals (loop_body (idle 1000.0625) (mkReceiver 3 0)
                (drop_port (sys_globals (run started abc))))) = true.
Proof.
  apply (reconnect_recovers (idle 1000.0625) (mkReceiver 3 0)
           (drop_port (sys_globals (run started abc)))
           eq_refl eq_refl).
  split; [simpl; lia|reflexivity].
Defined.

End LossAndRecovery.

(** ** The text of the stored messages *)

Section StoredText.

Lemma lstrip_head (s : Py.str) (c : N) (r : Py.str) :
  Py.lstrip s = c :: r -> Py.isspace c = false.
Proof.
  induction s as [|x s IH]; simpl; [discriminate|].
  destruct (Py.isspace x) eqn:E; [exact IH|]. now intros [= <- _].
Qed.

Lemma lstrip_split (s : Py.str) :
  exists ws, s = ws ++ Py.lstrip s
             /\ Forall (fun c => Py.isspace c = true) ws.
Proof.
  induction s as [|x s (ws & E & F)]; simpl.
  - exists []. auto.
  - destruct (Py.isspace x) eqn:S.
    + exists (x :: ws). split; [simpl; now f_equal|now constructor].
    + exists []. auto.
Qed.

Lemma lstrip_idem (s : Py.str) : Py.lstrip (Py.lstrip s) = Py.lstrip s.
Proof.
  destruct (Py.lstrip s) as [|c r] eqn:E; [reflexivity|].
  simpl. now rewrite (lstrip_head s c r E).
Qed.

(** [rstrip] takes a run of white space off the end and nothing else. *)
Lemma rstrip_split (s : Py.str) :
  exists ws, s = Py.rstrip s ++ ws
             /\ Forall (fun c => Py.isspace c = true) ws.
Proof.
  destruct (lstrip_split (rev s)) as (ws & E & F).
  exists (rev ws). split.
  - unfold Py.rstrip. rewrite <- rev_app_distr, <- E.
    symmetry. apply rev_involutive.
  - now apply Forall_rev.
Qed.

Lemma rstrip_idem (s : Py.str) : Py.rstrip (Py.rstrip s) = Py.rstrip s.
Proof.
  unfold Py.rstrip. now rewrite rev_involutive, lstrip_idem.
Qed.

Lemma rstrip_last (s body : Py.str) (c : N) :
  Py.rstrip s = body ++ [c] -> Py.isspace c = false.
Proof.
  unfold Py.rstrip. intros E. apply (f_equal (@rev N)) in E.
  rewrite rev_involutive, rev_app_distr in E. simpl in E.
  now apply lstrip_head in E.
Qed.

Lemma decode_ignore_scalar (raw : Py.bytes) (s : Py.str) :
  Py.decode Py.Ignore raw = Some s -> Forall Py.scalar s.
Proof.
  unfold Py.decode. rewrite handle_ignore. intros [= <-].
  apply (scan_reencodes (map Byte.to_N raw)).
Qed.

(** Where a message that a step appends comes from. *)
Lemma appended_origin (s : System) (a : action) (m : Message) :
  In m (appended s a) ->
  exists env raw str,
    a = Tick env /\ readline env = Done raw
    /\ Py.decode Py.Ignore raw = Some str
    /\ text m = Py.rstrip str /\ timestamp m = strftime env.
Proof.
  unfold appended. destruct a as [env|msg env|arg]; try contradiction.
  destruct (sys_receiver s) as [st|]; [|contradiction].
  destruct (usb_connected (sys_globals s)); [|contradiction].
  unfold poll. destruct (in_waiting env) as [n| |t]; try contradiction.
  destruct (0 <? n)%Z; [|contradiction].
  destruct (readline env) as [raw| |t] eqn:R; try contradiction.
  destruct (Py.decode Py.Ignore raw) as [str|] eqn:D; [|contradiction].
  destruct (Py.truthy (Py.rstrip str)); [|contradiction].
  simpl. intros [<-|[]]. exists env, raw, str. auto.
Qed.

Lemma history_origin (s : System) (l : list action) (m : Message) :
  In m (history s l) ->
  exists env raw str,
    In (Tick env) l /\ readline env = Done raw
    /\ Py.decode Py.Ignore raw = Some str
    /\ text m = Py.rstrip str /\ timestamp m = strftime env.
Proof.
  revert s; induction l as [|a l IH]; intros s; simpl; [contradiction|].
  intros H. apply in_app_or in H as [H|H].
  - apply appended_origin in H as (env & raw & str & -> & H).
    exists env, raw, str. split; [now left|exact H].
  - apply IH in H as (env & raw & str & I & H).
    exists env, raw, str. split; [now right|exact H].
Qed.

Lemma skipn_In {A : Type} (k : nat) (l : list A) (x : A) :
  In x (skipn k l) -> In x l.
Proof.
  intros H. rewrite <- (firstn_skipn k l). apply in_or_app. now right.
Qed.

(** X11. Every message in the buffer is a line that some turn of the
    receiver loop read: its text is that line, decoded, without its
    trailing white space, and its timestamp is the clock of that turn.
    So a stored text never ends in white space (the line feed that ends
    the line, and a carriage return before it, are not stored; white
    space inside the line stays), stripping it again changes nothing, it
    is not empty and it holds scalar values only. *)
Theorem stored_text_stripped :
  forall (c : list Py.str) (o : bool) (l : list action) (m : Message),
    In m (received_messages (sys_globals (run (main c o) l))) ->
    (exists env raw str,
       In (Tick env) l /\ readline env = Done raw
       /\ Py.decode Py.Ignore raw = Some str
       /\ text m = Py.rstrip str /\ timestamp m = strftime env)
    /\ Py.rstrip (text m) = text m
    /\ (forall body x, text m = body ++ [x] -> Py.isspace x = false)
    /\ text m <> []
    /\ Forall Py.scalar (text m).
Proof.
  intros c o l m H.
  pose proof (inv_reach c o l) as I.
  rewrite (inv_buffer _ _ I) in H. apply skipn_In in H.
  pose proof (inv_text _ _ I) as T. rewrite Forall_forall in T.
  destruct (history_origin _ _ _ H) as (env & raw & str & O).
  split; [now exists env, raw, str|].
  destruct O as (_ & _ & D & E & _). rewrite E. repeat split.
  - apply rstrip_idem.
  - intros body x. apply rstrip_last.
  - rewrite <- E. now apply T.
  - apply decode_ignore_scalar in D.
    destruct (rstrip_split str) as (ws & S & _).
    rewrite S in D. now apply Forall_app in D.
Qed.

(** The three messages A, B and C: the second one is stored as "B". *)
Lemma stored_text_stripped_B :
  Py.rstrip (Py.lit "B") = Py.lit "B".
Proof.
  apply (stored_text_stripped [ACM1; ACM0] true abc
           (mkMessage 2 (Py.lit "B") (Py.lit "12:00:01"))).
  simpl. auto.
Defined.

End StoredText.

(** ** Reading with a cursor *)

Section Cursor.

Lemma history_split_ids (s0 : System) (l1 l2 : list action) :
  inv (run s0 l1) (history s0 l1) ->
  inv (run s0 (l1 ++ l2)) (history s0 (l1 ++ l2)) ->
  forall m, In m (history (run s0 l1) l2) ->
            (Z.of_nat (List.length (history s0 l1)) < id m)%Z.
Proof.
  intros I1 I2 m Hm.
  pose proof (inv_ids _ _ I1) as E1. pose proof (inv_ids _ _ I2) as E2.
  rewrite history_app, map_app, length_app, seq_app, map_app, E1 in E2.
  apply app_inv_head in E2.
  apply (in_map id) in Hm. rewrite E2 in Hm.
  apply in_map_iff in Hm as (k & <- & Hk). apply in_seq in Hk. lia.
Qed.

(** X12. A reader that asks for the messages after the newest id it has
    seen gets exactly what was appended since then, in order, without
    repeats and without gaps, as long as no more than 100 messages were
    appended in between; when more were appended it gets the last 100
    of them. The newest id a reader has seen is the number of messages
    appended up to then; a reader that has seen nothing asks with 0, or
    with no [last_id], and gets the whole buffer. *)
Theorem read_since_last_seen :
  forall (c : list Py.str) (o : bool) (l1 l2 : list action),
    let s0 := main c o in
    let s1 := run s0 l1 in
    let seen := Z.of_nat (List.length (history s0 l1)) in
    let new := history s1 l2 in
    let g2 := sys_globals (run s1 l2) in
    query (received_messages g2) seen
    = skipn (List.length new - 100) new
    /\ ((List.length new <= 100)%nat ->
        query (received_messages g2) seen = new)
    /\ (forall older newest,
          received_messages (sys_globals s1) = older ++ [newest] ->
          id newest = seen)
    /\ (forall arg r,
          arg = None \/ arg = Some (Py.lit "0") ->
          value (api_receive arg g2) = inr r ->
          messages r = received_messages g2).
Proof.
  intros c o l1 l2 s0 s1 seen new g2.
  pose proof (inv_reach c o l1) as I1.
  pose proof (inv_reach c o (l1 ++ l2)) as I2.
  fold s0 in I1, I2. fold s1 in I1.
  assert (Q : query (received_messages g2) seen
              = skipn (List.length new - 100) new).
  { unfold g2, s1. rewrite <- run_app, (inv_buffer _ _ I2), history_app.
    fold s1 new. rewrite length_app, skipn_app.
    unfold query. rewrite filter_app.
    rewrite filter_none, filter_all; simpl.
    - f_equal. unfold MAXLEN. lia.
    - intros m Hm. apply skipn_In in Hm. apply Z.ltb_lt.
      now apply (history_split_ids s0 l1 l2 I1 I2).
    - intros m Hm. apply skipn_In in Hm. apply Z.ltb_ge.
      apply (history_id _ _ _ I1 Hm). }
  split; [exact Q|]. split; [|split].
  - intros L. rewrite Q.
    now replace (List.length new - 100)%nat with 0%nat by lia.
  - intros older newest E.
    pose proof (buffer_ids _ _ I1) as B. rewrite E in B.
    assert (L : List.length (older ++ [newest])
                = (List.length (history s0 l1)
                   - (List.length (history s0 l1) - MAXLEN))%nat).
    { rewrite <- E, (inv_buffer _ _ I1). apply length_skipn. }
    rewrite length_app in L. simpl in L.
    replace (List.length (history s0 l1)
             - (List.length (history s0 l1) - MAXLEN))%nat
      with (S (List.length older)) in B by lia.
    rewrite seq_S, !map_app in B. simpl in B.
    apply app_inj_tail in B as [_ B]. rewrite B. unfold seen. lia.
  - intros arg r A V.
    assert (R : value (api_receive arg g2)
                = inr (mkReceiveResponse (query (received_messages g2) 0)
                         (usb_connected g2)
                         (port_or_NA (current_usb_port g2))))
      by (destruct A as [-> | ->]; reflexivity).
    rewrite R in V. injection V as <-. simpl.
    apply filter_all. intros m Hm. apply Z.ltb_lt.
    unfold g2, s1 in Hm. rewrite <- run_app in Hm.
    pose proof (buffer_id _ _ _ I2 Hm). lia.
Qed.

(** A reader that saw A asks with 1 after B and C arrived. *)
Lemma read_since_last_seen_abc :
  query (received_messages (sys_globals (run started abc))) 1
  = [mkMessage 2 (Py.lit "B") (Py.lit "12:00:01");
     mkMessage 3 (Py.lit "C") (Py.lit "12:00:02")].
Proof.
  apply (proj1 (proj2 (read_since_last_seen [ACM1; ACM0] true
                         (firstn 1 abc) (skipn 1 abc)))).
  simpl. lia.
Defined.

End Cursor.

(** ** What is sent and read back *)

Section Loopback.

Local Open Scope N_scope.

Ltac order_bytes :=
  repeat match goal with
         | |- context [?a <? ?b] =>
             destruct (N.ltb_spec a b); try lia
         end.

Lemma scan_1 (b1 : N) (r : list N) :
  b1 < 0x80 -> Py.scan (b1 :: r) = Py.Char b1 :: Py.scan r.
Proof. intros H. simpl. now order_bytes. Qed.

Lemma scan_2 (b1 b2 : N) (r : list N) :
  0xC2 <= b1 < 0xE0 -> Py.is_cont b2 = true ->
  Py.scan (b1 :: b2 :: r) = Py.Char (Py.char2 b1 b2) :: Py.scan r.
Proof. intros H1 H2. simpl. rewrite H2. now order_bytes. Qed.

Lemma scan_3 (b1 b2 b3 : N) (r : list N) :
  0xE0 <= b1 < 0xF0 -> Py.second_of_3 b1 b2 = true ->
  Py.is_cont b3 = true ->
  Py.scan (b1 :: b2 :: b3 :: r)
  = Py.Char (Py.char3 b1 b2 b3) :: Py.scan r.
Proof. intros H1 H2 H3. simpl. rewrite H2, H3. now order_bytes. Qed.

Lemma scan_4 (b1 b2 b3 b4 : N) (r : list N) :
  0xF0 <= b1 < 0xF5 -> Py.second_of_4 b1 b2 = true ->
  Py.is_cont b3 = true -> Py.is_cont b4 = true ->
  Py.scan (b1 :: b2 :: b3 :: b4 :: r)
  = Py.Char (Py.char4 b1 b2 b3 b4) :: Py.scan r.
Proof.
  intros H1 H2 H3 H4. simpl. rewrite H2, H3, H4. now order_bytes.
Qed.

Lemma is_cont_intro (b : N) : 0x80 <= b <= 0xBF -> Py.is_cont b = true.
Proof.
  intros H. unfold Py.is_cont.
  destruct (N.leb_spec 0x80 b), (N.leb_spec b 0xBF); try reflexivity; lia.
Qed.

Lemma second_of_3_intro (b1 b2 : N) :
  0x80 <= b2 <= 0xBF -> (b1 = 0xE0 -> 0xA0 <= b2) ->
  (b1 = 0xED -> b2 < 0xA0) -> Py.second_of_3 b1 b2 = true.
Proof.
  intros H1 H2 H3. unfold Py.second_of_3. rewrite is_cont_intro by lia.
  destruct (N.ltb_spec b2 0xA0), (N.eqb_spec b1 0xE0),
           (N.eqb_spec b1 0xED); try reflexivity; lia.
Qed.

Lemma second_of_4_intro (b1 b2 : N) :
  0x80 <= b2 <= 0xBF -> (b1 = 0xF0 -> 0x90 <= b2) ->
  (b1 = 0xF4 -> b2 < 0x90) -> Py.second_of_4 b1 b2 = true.
Proof.
  intros H1 H2 H3. unfold Py.second_of_4. rewrite is_cont_intro by lia.
  destruct (N.ltb_spec b2 0x90), (N.eqb_spec b1 0xF0),
           (N.eqb_spec b1 0xF4); try reflexivity; lia.
Qed.

Lemma split_64 (c : N) : exists h l, c = h * 64 + l /\ l < 64.
Proof.
  exists (c / 64), (c mod 64). split.
  - rewrite N.mul_comm. apply N.div_mod'.
  - now apply N.mod_lt.
Qed.

(** The bytes the encoder gives a code point are read back by the
    decoder as that code point. *)
Lemma encode_char_form (c : N) (form : list N) :
  Py.encode_char c = Some form ->
  Forall (fun b => b < 256) form
  /\ forall r, Py.scan (form ++ r) = Py.Char c :: Py.scan r.
Proof.
  intros E.
  destruct (N.lt_ge_cases c 0x80) as [C1|C1].
  { rewrite (proj1 (encode_char1 c C1)) in E.
    assert (F : form = [c]) by congruence. subst form.
    split; [repeat constructor; lia|]. intros r. now apply scan_1. }
  destruct (split_64 c) as (h1 & l & Ec & Hl).
  remember (0x80 + l) as bl eqn:Ebl.
  destruct (N.lt_ge_cases c 0x800) as [C2|C2].
  { remember (0xC0 + h1) as b1 eqn:Eb1.
    assert (Ech : Py.char2 b1 bl = c).
    { unfold Py.char2. rewrite !N.shiftl_mul_pow2.
      change (2 ^ 6) with 64. lia. }
    assert (G : Py.is_cont bl = true) by (apply is_cont_intro; lia).
    destruct (encode_char2 b1 bl) as [E2 _]; [lia|exact G|].
    rewrite Ech in E2.
    assert (F : form = [b1; bl]) by congruence. subst form.
    split; [repeat constructor; lia|].
    intros r. cbn [app]. rewrite scan_2, Ech by (auto; lia).
    reflexivity. }
  assert (S : c < 0xD800 \/ 0xDFFF < c).
  { destruct (N.lt_ge_cases c 0xD800); [now left|].
    destruct (N.lt_ge_cases 0xDFFF c); [now right|].
    exfalso. unfold Py.encode_char in E.
    destruct (N.ltb_spec c 0x80); [lia|].
    destruct (N.ltb_spec c 0x800); [lia|].
    unfold Py.is_surrogate in E.
    destruct (N.leb_spec 0xD800 c), (N.leb_spec c 0xDFFF); try lia.
    discriminate. }
  destruct (split_64 h1) as (h2 & m & Eh1 & Hm).
  remember (0x80 + m) as bm eqn:Ebm.
  destruct (N.lt_ge_cases c 0x10000) as [C3|C3].
  { remember (0xE0 + h2) as b1 eqn:Eb1.
    assert (Ech : Py.char3 b1 bm bl = c).
    { unfold Py.char3. rewrite !N.shiftl_mul_pow2.
      change (2 ^ 6) with 64. change (2 ^ 12) with 4096. lia. }
    assert (G2 : Py.second_of_3 b1 bm = true)
      by (apply second_of_3_intro; lia).
    assert (G3 : Py.is_cont bl = true) by (apply is_cont_intro; lia).
    destruct (encode_char3 b1 bm bl) as [E3 _];
      [lia|exact G2|exact G3|].
    rewrite Ech in E3.
    assert (F : form = [b1; bm; bl]) by congruence. subst form.
    split; [repeat constructor; lia|].
    intros r. cbn [app]. rewrite scan_3, Ech by (auto; lia).
    reflexivity. }
  assert (C4 : c <= 0x10FFFF).
  { destruct (N.le_gt_cases c 0x10FFFF); [assumption|].
    exfalso. unfold Py.encode_char in E.
    destruct (N.ltb_spec c 0x80); [lia|].
    destruct (N.ltb_spec c 0x800); [lia|].
    unfold Py.is_surrogate in E.
    destruct (N.leb_spec 0xD800 c), (N.leb_spec c 0xDFFF); try lia;
      cbn [andb] in E;
      (destruct (N.ltb_spec c 0x10000); [lia|]);
      (destruct (N.leb_spec c 0x10FFFF); [lia|discriminate]). }
  destruct (split_64 h2) as (h3 & k & Eh2 & Hk).
  remember (0x80 + k) as bk eqn:Ebk.
  remember (0xF0 + h3) as b1 eqn:Eb1.
  assert (Ech : Py.char4 b1 bk bm bl = c).
  { unfold Py.char4. rewrite !N.shiftl_mul_pow2.
    change (2 ^ 6) with 64. change (2 ^ 12) with 4096.
    change (2 ^ 18) with 262144. lia. }
  assert (G2 : Py.second_of_4 b1 bk = true)
    by (apply second_of_4_intro; lia).
  assert (G3 : Py.is_cont bm = true) by (apply is_cont_intro; lia).
  assert (G4 : Py.is_cont bl = true) by (apply is_cont_intro; lia).
  destruct (encode_char4 b1 bk bm bl) as [E4 _];
    [lia|exact G2|exact G3|exact G4|].
  rewrite Ech in E4.
  assert (F : form = [b1; bk; bm; bl]) by congruence. subst form.
  split; [repeat constructor; lia|].
  intros r. cbn [app]. rewrite scan_4, Ech by (auto; lia).
  reflexivity.
Qed.

Lemma encode_points_scan (s : Py.str) (bs : list N) :
  Py.encode_points s = Some bs ->
  Forall (fun b => b < 256) bs /\ Py.scan bs = map Py.Char s.
Proof.
  revert bs; induction s as [|c s IH]; simpl; intros bs.
  - intros [= <-]. split; [constructor|reflexivity].
  - destruct (Py.encode_char c) as [form|] eqn:E; [|discriminate].
    destruct (Py.encode_points s) as [br|]; [|discriminate].
    intros [= <-]. destruct (IH br eq_refl) as [F S].
    destruct (encode_char_form c form E) as [F1 S1]. split.
    + apply Forall_app. now split.
    + now rewrite S1, S.
Qed.

Lemma handle_chars (e : Py.errors) (s : Py.str) :
  Py.handle e (map Py.Char s) = Some s.
Proof. induction s as [|c s IH]; simpl; [|rewrite IH]; reflexivity. Qed.

Lemma to_N_byte_of (n : N) : n < 256 -> Byte.to_N (Py.byte_of n) = n.
Proof.
  intros H. unfold Py.byte_of.
  pose proof (Byte.to_of_N_option_map n) as M.
  destruct (N.leb_spec n 255); [|lia].
  destruct (Byte.of_N n); simpl in M; congruence.
Qed.

(** Decoding, with any error handler, undoes encoding. *)
Lemma decode_encode (e : Py.errors) (s : Py.str) (data : Py.bytes) :
  Py.encode s = Some data -> Py.decode e data = Some s.
Proof.
  unfold Py.encode, Py.decode.
  destruct (Py.encode_points s) as [bs|] eqn:E; [|discriminate].
  intros [= <-]. destruct (encode_points_scan s bs E) as [F S].
  rewrite map_map.
  replace (map (fun x => Byte.to_N (Py.byte_of x)) bs) with bs.
  - rewrite S. apply handle_chars.
  - rewrite <- (map_id bs) at 1. apply map_ext_in.
    rewrite Forall_forall in F. intros b Hb. symmetry.
    now apply to_N_byte_of, F.
Qed.

Lemma rstrip_LF (m : Py.str) : Py.rstrip (m ++ LF) = Py.rstrip m.
Proof. unfold Py.rstrip, LF. now rewrite rev_app_distr. Qed.

(** X13. What [send_to_serial] writes for a message is read back by the
    receiver loop as that message: if the bytes written for [m] come in
    on the port as a line, every decoder returns [m] and the line feed
    (nothing is malformed), and the turn of the loop that reads them
    stores [m] without its trailing white space, or discards the line
    when [m] is blank. *)
Theorem sent_line_read_back :
  forall (m : Py.str) (data : Py.bytes),
    Py.encode (m ++ LF) = Some data ->
    (forall senv g,
       usb_connected g = true -> write_result senv = Done tt ->
       trace (send_to_serial m senv g) = [Write data])
    /\ (forall e, Py.decode e data = Some (m ++ LF))
    /\ (forall env n,
          in_waiting env = Done n -> (0 < n)%Z ->
          readline env = Done data ->
          fst (poll env)
          = if Py.truthy (Py.rstrip m) then Line (Py.rstrip m)
            else Nothing)
    /\ (forall s st env n,
          sys_receiver s = Some st ->
          usb_connected (sys_globals s) = true ->
          in_waiting env = Done n -> (0 < n)%Z ->
          readline env = Done data -> Py.rstrip m <> [] ->
          appended s (Tick env)
          = [mkMessage (message_id st + 1) (Py.rstrip m) (strftime env)]).
Proof.
  intros m data E.
  assert (D : forall e, Py.decode e data = Some (m ++ LF))
    by (intros e; now apply decode_encode).
  assert (P : forall env n,
            in_waiting env = Done n -> (0 < n)%Z ->
            readline env = Done data ->
            fst (poll env)
            = if Py.truthy (Py.rstrip m) then Line (Py.rstrip m)
              else Nothing).
  { intros env n Hw Hn Hr. unfold poll. rewrite Hw.
    apply Z.ltb_lt in Hn as ->. rewrite Hr, D, rstrip_LF.
    now destruct (Py.truthy (Py.rstrip m)). }
  split; [|split; [exact D|split; [exact P|]]].
  - intros senv g U W. unfold send_to_serial. now rewrite U, E, W.
  - intros s st env n R U Hw Hn Hr Hm. unfold appended.
    rewrite R, U, (P env n Hw Hn Hr).
    destruct (Py.rstrip m); [contradiction|reflexivity].
Qed.

(** The message "hi" and the three bytes written for it. *)
Lemma sent_line_read_back_hi :
  fst (poll (rx [x68; x69; x0a]%byte "12:00:00")) = Line (Py.lit "hi").
Proof.
  apply (proj1 (proj2 (proj2
           (sent_line_read_back (Py.lit "hi") [x68; x69; x0a]%byte
              eq_refl)))
           (rx [x68; x69; x0a]%byte "12:00:00") 3%Z);
    reflexivity.
Defined.

End Loopback.

(** ** The end of [main] *)

Section Shutdown.

(** X14. The [finally] of [main()] leaves the connection closed: it
    closes the port exactly when it was open, keeps the buffer, and
    running it again does nothing. A send after it is answered with the
    error "USB serial not connected" and touches nothing; the path of
    the closed port stays on record. *)
Theorem shutdown_closes :
  forall g : Globals,
    let o := shutdown g in
    usb_connected (globals o) = false
    /\ (trace o = [Close] <-> usb_connected g = true)
    /\ (trace o = [] <-> usb_connected g = false)
    /\ shutdown (globals o) = mkOut tt (globals o) []
    /\ received_messages (globals o) = received_messages g
    /\ current_usb_port (globals o) = current_usb_port g
    /\ (forall m env,
          m <> [] ->
          api_send m env (globals o)
          = mkOut (mkSendResponse (Py.lit "error")
                     (Py.lit "USB serial not connected")) (globals o) []).
Proof.
  intros g o. subst o. unfold shutdown, usb_connected.
  destruct (serial_port g) as [[p b [|]]|] eqn:E; simpl; rewrite ?E;
    repeat split; auto; try discriminate;
    intros m env Hm; destruct m as [|c m]; try contradiction;
    unfold api_send, send_to_serial, usb_connected; simpl;
    now rewrite ?E.
Qed.

End Shutdown.

(** ** The chosen device, without the sort *)

Section SecondSmallest.

Lemma insert_least (x : Py.str) (l : list Py.str) :
  Forall (str_le x) l -> Py.insert x l = x :: l.
Proof.
  destruct l as [|y l]; [reflexivity|]. intros H. simpl.
  now rewrite (Forall_inv H).
Qed.

(** X15. The path [setup_serial] chooses is the second smallest of the
    listed paths: [p] is chosen exactly when the listing is some path
    [q], then [p], then the rest, in some order, where [q] is at most
    [p] and [p] is at most every path of the rest. In particular the
    chosen path is one of the listed ones. *)
Theorem select_port_second_smallest :
  forall (c : list Py.str) (p : Py.str),
    (select_port c = Some p <->
     exists q rest,
       Permutation c (q :: p :: rest)
       /\ str_le q p /\ Forall (str_le p) rest)
    /\ (select_port c = Some p -> In p c).
Proof.
  intros c p.
  assert (F : select_port c = Some p ->
              exists q rest,
                Py.sorted c = q :: p :: rest
                /\ str_le q p /\ Forall (str_le p) rest).
  { unfold select_port. pose proof (sorted_sorted c) as S.
    destruct (Py.sorted c) as [|q [|p' rest]]; simpl; try discriminate.
    intros [= ->]. exists q, rest. split; [reflexivity|].
    inversion_clear S as [|? ? S' Hq]. inversion_clear S' as [|? ? _ Hp].
    split; [exact (Forall_inv Hq)|exact Hp]. }
  split; [split|].
  - intros H. destruct (F H) as (q & rest & E & H1 & H2).
    exists q, rest. split; auto. rewrite <- E. apply sorted_perm.
  - intros (q & rest & P & H1 & H2).
    rewrite (select_port_perm _ _ P). unfold select_port. simpl.
    assert (E : Py.insert q (Py.insert p (Py.sorted rest))
                = q :: p :: Py.sorted rest).
    { rewrite (insert_least p).
      - simpl. unfold str_le in H1. now rewrite H1.
      - eapply Permutation_Forall; [apply sorted_perm|exact H2]. }
    rewrite E. reflexivity.
  - intros H. destruct (F H) as (q & rest & E & _).
    eapply Permutation_in; [apply Permutation_sym, sorted_perm|].
    rewrite E. right. now left.
Qed.

(** Three devices, listed out of order. *)
Lemma select_port_second_smallest_three :
  select_port [Py.lit "/dev/ttyACM2"; ACM0; ACM1] = Some ACM1.
Proof.
  apply (proj1 (select_port_second_smallest
                  [Py.lit "/dev/ttyACM2"; ACM0; ACM1] ACM1)).
  exists ACM0, [Py.lit "/dev/ttyACM2"]. split; [|split].
  - eapply perm_trans; [apply perm_swap|]. apply perm_skip, perm_swap.
  - reflexivity.
  - repeat constructor.
Defined.

End SecondSmallest.

(** ** A turn of the loop and the port *)

Section LoopAndPort.

Lemma poll_readline (env : LoopEnv) :
  In Readline (snd (poll env)) <->
  exists n, in_waiting env = Done n /\ (0 < n)%Z.
Proof.
  unfold poll. destruct (in_waiting env) as [n| |t]; simpl.
  - destruct (Z.ltb_spec 0 n); simpl.
    + assert (R : In Readline
                    (snd (match readline env with
                          | Done raw =>
                              match Py.decode Py.Ignore raw with
                              | Some s =>
                                  if Py.truthy (Py.rstrip s)
                                  then (Line (Py.rstrip s),
                                        [InWaiting; Readline])
                                  else (Nothing, [InWaiting; Readline])
                              | None => (Fault, [InWaiting; Readline])
                              end
                          | SerialError => (Lost, [InWaiting; Readline])
                          | OtherError _ =>
                              (Fault, [InWaiting; Readline])
                          end))).
      { destruct (readline env) as [raw| |t]; simpl; auto.
        destruct (Py.decode Py.Ignore raw) as [s|]; simpl; auto.
        destruct (Py.truthy (Py.rstrip s)); simpl; auto. }
      split; [intros _; now exists n|intros _; exact R].
    + split; [intros [F|[]]; discriminate|].
      intros (k & [= <-] & F). lia.
  - split; [intros [F|[]]; discriminate|].
    intros (k & F & _). discriminate.
  - split; [intros [F|[]]; discriminate|].
    intros (k & F & _). discriminate.
Qed.

(** X16. A turn of the receiver loop never writes to the port. It calls
    [readline] exactly when the connection is open and [in_waiting]
    reported input, so it never waits for a line on a silent port; and
    it lists or opens devices only while the connection is closed. *)
Theorem loop_reads_waiting_input :
  forall (env : LoopEnv) (st : Receiver) (g : Globals),
    let o := loop_body env st g in
    (forall data, ~ In (Write data) (trace o))
    /\ (In Readline (trace o) <->
        usb_connected g = true
        /\ exists n, in_waiting env = Done n /\ (0 < n)%Z)
    /\ (In InWaiting (trace o) <-> usb_connected g = true)
    /\ (forall e, In e (trace o) -> e = Glob \/ (exists p, e = Open p) ->
          usb_connected g = false).
Proof.
  intros env st g o.
  assert (IW : In InWaiting (snd (poll env))).
  { unfold poll. destruct (in_waiting env) as [n| |t]; simpl; auto.
    destruct (0 <? n)%Z; simpl; auto.
    destruct (readline env) as [raw| |t]; simpl; auto.
    destruct (Py.decode Py.Ignore raw) as [s|]; simpl; auto.
    destruct (Py.truthy (Py.rstrip s)); simpl; auto. }
  assert (S : forall e, In e (trace (setup_serial (acm_paths env)
                                       (opens env) g)) ->
                e = Close \/ e = Glob \/ exists p, e = Open p).
  { unfold setup_serial.
    destruct (serial_port g), (select_port (acm_paths env)), (opens env);
      simpl; intuition eauto. }
  assert (T : trace o
              = if usb_connected g
                then match fst (poll env) with
                     | Lost => snd (poll env) ++ [Close]
                     | _ => snd (poll env)
                     end
                else if (RECONNECT_INTERVAL
                         <=? time env - last_reconnect_attempt st)%float
                     then trace (setup_serial (acm_paths env)
                                   (opens env) g)
                     else []).
  { subst o. unfold loop_body. destruct (usb_connected g).
    - now destruct (poll env) as [[line| | |] evs].
    - now destruct (_ <=? _)%float. }
  rewrite T. clear T. pose proof (poll_trace env) as PT.
  pose proof (poll_readline env) as PR.
  destruct (usb_connected g).
  - assert (Q : forall e, In e (match fst (poll env) with
                                | Lost => snd (poll env) ++ [Close]
                                | _ => snd (poll env)
                                end) ->
                  In e (snd (poll env)) \/ e = Close).
    { intros e. destruct (fst (poll env)); auto.
      intros H. apply in_app_or in H as [H|[<-|[]]]; auto. }
    assert (Q' : forall e, In e (snd (poll env)) ->
                   In e (match fst (poll env) with
                         | Lost => snd (poll env) ++ [Close]
                         | _ => snd (poll env)
                         end)).
    { intros e H. destruct (fst (poll env)); auto.
      apply in_or_app. now left. }
    split; [|split; [|split]].
    + intros data H. apply Q in H as [H|H]; [|discriminate].
      apply PT in H as [H|H]; discriminate.
    + split.
      * intros H. split; [reflexivity|]. apply PR.
        apply Q in H as [H|H]; [exact H|discriminate].
      * intros [_ H]. apply Q', PR, H.
    + split; [reflexivity|]. intros _. now apply Q'.
    + intros e H [->|(p & ->)]; apply Q in H as [H|H];
        try discriminate; apply PT in H as [H|H]; discriminate.
  - destruct (_ <=? _)%float.
    + split; [|split; [|split]].
      * intros data H. apply S in H as [H|[H|(p & H)]]; discriminate.
      * split; [|intros [F _]; discriminate].
        intros H. apply S in H as [H|[H|(p & H)]]; discriminate.
      * split; [|discriminate].
        intros H. apply S in H as [H|[H|(p & H)]]; discriminate.
      * reflexivity.
    + split; [|split; [|split]]; simpl; auto.
      * split; [intros []|intros [F _]; discriminate].
      * split; [intros []|discriminate].
Qed.

End LoopAndPort.

(** ** A decimal [last_id] *)

Section DecimalCursor.

(** X17. A [last_id] that is a run of ASCII digits, leading zeros
    allowed, is accepted as long as it has no more than 4300 digits:
    [api_receive] then answers with the messages whose id is above the
    number the digits stand for, and changes nothing. A run of more
    than 4300 digits is refused, whatever number it stands for:
    [api_receive] ends with [ValueError]. *)
Theorem api_receive_decimal :
  forall (ds : Py.str) (g : Globals),
    ds <> [] -> Forall (fun d => Py.is_digit d = true) ds ->
    ((List.length ds <= 4300)%nat ->
     api_receive (Some ds) g
     = mkOut (inr (mkReceiveResponse
                     (query (received_messages g) (decimal_value ds))
                     (usb_connected g)
                     (port_or_NA (current_usb_port g))))
         g [])
    /\ ((4300 < List.length ds)%nat ->
        api_receive (Some ds) g = mkOut (inl ValueError) g []).
Proof.
  intros ds g N D. unfold api_receive. split; intros L.
  - now rewrite (int_decimal ds N D L).
  - now rewrite (int_too_long ds D L).
Qed.

(** The argument [last_id=02] after A, B and C were received. *)
Lemma api_receive_decimal_02 :
  value (api_receive (Some (Py.lit "02")) (sys_globals (run started abc)))
  = inr (mkReceiveResponse
           [mkMessage 3 (Py.lit "C") (Py.lit "12:00:02")] true ACM1).
Proof.
  rewrite (proj1 (api_receive_decimal (Py.lit "02")
                    (sys_globals (run started abc))
                    ltac:(discriminate) ltac:(repeat constructor)));
    [reflexivity|simpl; lia].
Defined.

End DecimalCursor.
